(** * Credential issuance and verification of the chatbot backend

    A shallow embedding of
      - [app/core/security.py]        (token issue, password check, bearer guard),
      - [app/services/user_service.py] (the two persistence methods),
      - [app/api/endpoints/auth.py]    (the [register] and [login] handlers),
      - [app/schemas/user.py]          (the public views),
      - [app/core/logging_config.py]   (the JSON formatter and the set-up),
    together with the properties the specification states about them and
    further properties read off the code.

    Third-party packages (passlib, python-jose, SQLAlchemy, uuid, datetime)
    are not part of the repository.  They enter the development as
    interfaces: a record of operations plus a contract, taken from the
    packages' documented behaviour.  Every result is proved for an arbitrary
    implementation of the interface; module [Ref] gives a small executable
    implementation, which shows the contracts are satisfiable and lets the
    handlers run on concrete requests. *)

From Stdlib Require Import ZArith Ascii String.
From stdpp Require Import base option list strings gmap.

Local Open Scope Z_scope.

(** ** Python values and time *)

(** [datetime] values count microseconds since the epoch (UTC), [timedelta]
    values count microseconds; both have microsecond resolution in Python. *)
Definition datetime := Z.
Definition timedelta := Z.

(** [timedelta(minutes=m)] *)
Definition timedelta_minutes (m : Z) : timedelta := m * 60000000.

(** [calendar.timegm(t.utctimetuple())]: whole seconds, the microseconds are
    dropped.  python-jose stores and compares [exp] in this unit. *)
Definition timegm (t : datetime) : Z := t `div` 1000000.

(** The values that occur in a token's claims dictionary. *)
Inductive pyval :=
| PNone
| PStr (s : string)
| PInt (n : Z)
| PDatetime (t : datetime).

#[global] Instance pyval_eq_dec : EqDecision pyval.
Proof. solve_decision. Defined.

(** A Python [dict] with string keys. *)
Abbreviation pydict := (gmap string pyval).

(** ** Exceptions *)

(** The subclasses of [jose.JWTError] that [jwt.decode] raises.  A token
    whose structure cannot be decoded and a token whose signature does not
    verify both raise the base class; they are told apart here only to name
    the causes the specification lists. *)
Inductive jwt_error :=
| Malformed
| InvalidSignature
| ExpiredSignatureError
| JWTClaimsError.

(** Exceptions that can leave a handler. *)
Inductive exn :=
| HTTPException (status_code : Z) (detail : string)
                (headers : option (list (string * string)))
| UnknownHashError        (* passlib.exc, a ValueError *)
| MalformedHashError      (* passlib.exc, a ValueError *)
| PasswordValueError      (* passlib.exc, a ValueError *)
| ValidationError         (* pydantic *)
| MultipleResultsFound    (* sqlalchemy.exc *)
| IntegrityError.         (* sqlalchemy.exc *)

Definition HTTP_400_BAD_REQUEST : Z := 400.
Definition HTTP_401_UNAUTHORIZED : Z := 401.

(** ** Configuration: [app/core/config.py] *)

Record Settings := {
  SECRET_KEY : string;
  ALGORITHM : string;
  ACCESS_TOKEN_EXPIRE_MINUTES : Z
}.

(** The defaults of class [Settings]; an environment file may override them. *)
Definition default_settings : Settings := {|
  SECRET_KEY := "your-super-secret-jwt-key-here-change-in-production";
  ALGORITHM := "HS256";
  ACCESS_TOKEN_EXPIRE_MINUTES := 30
|}.

(** ** Library interfaces *)

(** [pwd_context = CryptContext(schemes=["bcrypt"], deprecated="auto")].
    [ctx_hash salt secret] is [pwd_context.hash(secret)] when the call draws
    [salt] from the system's random source; it raises for a secret the
    scheme refuses (bcrypt refuses one with a NUL character, with
    [PasswordValueError]).  [ctx_verify secret hash] is
    [pwd_context.verify(secret, hash)]; it raises when no configured scheme
    identifies [hash] and when the scheme refuses [secret]. *)
Record CryptContext := {
  ctx_hash : string → string → exn + string;
  ctx_verify : string → string → exn + bool
}.

(** What passlib promises about a context: whether a secret is refused
    does not depend on the salt; a hash verifies against the secret it was
    made from; and verifying a secret the scheme accepts against a hash the
    context produced returns a boolean. *)
Record CryptContextSpec (ctx : CryptContext) : Prop := {
  accepts_any_salt : ∀ salt salt' secret h,
    ctx_hash ctx salt secret = inr h →
    ∃ h', ctx_hash ctx salt' secret = inr h';
  verify_hash : ∀ salt secret h,
    ctx_hash ctx salt secret = inr h →
    ctx_verify ctx secret h = inr true;
  verify_own_hash : ∀ salt secret h salt' other h',
    ctx_hash ctx salt secret = inr h →
    ctx_hash ctx salt' other = inr h' →
    ∃ b, ctx_verify ctx other h = inr b
}.

(** [jose.jwt].  [jwt_encode claims key algorithm] is [jwt.encode], taken
    to return (the configured algorithm is one the library supports);
    [jwt_decode now token key algorithms] is [jwt.decode] called when the
    clock reads [now].  Every failure of [jwt.decode] is a [JWTError]. *)
Record Jose := {
  jwt_encode : pydict → string → string → string;
  jwt_decode : datetime → string → string → list string → jwt_error + pydict
}.

(** The claims [login] signs: a subject and an expiry. *)
Definition sub_exp_claims (sub : string) (exp : pyval) : pydict :=
  <["exp" := exp]> {["sub" := PStr sub]}.

(** What python-jose promises for the configured key and algorithm:
    decoding a token it encoded returns the claims, with the [exp] datetime
    replaced by its [timegm] seconds, unless [exp] lies before the current
    second, in which case it raises [ExpiredSignatureError]. *)
Record JoseSpec (jose : Jose) (settings : Settings) : Prop := {
  decode_encode : ∀ now sub (exp : datetime),
    jwt_decode jose now
      (jwt_encode jose (sub_exp_claims sub (PDatetime exp))
                  (SECRET_KEY settings) (ALGORITHM settings))
      (SECRET_KEY settings) [ALGORITHM settings]
    = if timegm exp <? timegm now then inl ExpiredSignatureError
      else inr (sub_exp_claims sub (PInt (timegm exp)))
}.

(** ** The users table *)

(** Modelled from the spec: the ORM class [User] of [app/models/user.py],
    which the handlers import but which is not among the source files.  The
    specification gives its columns: [id] (text, primary key), [email],
    [hashed_password], [is_guest], [is_active], [created_at], [updated_at],
    the last three set when the row is created. *)
Record User := {
  id : string;
  email : string;
  hashed_password : string;
  is_guest : bool;
  is_active : bool;
  created_at : datetime;
  updated_at : datetime
}.

(** The table, rows in insertion order.  The specification leaves email
    uniqueness to the handler's check ("not by a uniqueness constraint in
    this design"), so the table itself accepts any email; the primary key
    is enforced by the table.  A unique index on [email] would make no
    difference to [register], which inserts only after its lookup found no
    row with that email. *)
Abbreviation DB := (list User).

(** ** Handlers as state and exception passing *)

(** A handler runs against the request's database session: it returns a
    value or raises, and leaves a table behind. *)
Definition M (A : Type) : Type := DB → (exn + A) * DB.

Definition ret {A} (a : A) : M A := λ db, (inr a, db).
Definition raise {A} (e : exn) : M A := λ db, (inl e, db).
Definition bind {A B} (m : M A) (k : A → M B) : M B :=
  λ db, match m db with
        | (inl e, db') => (inl e, db')
        | (inr a, db') => k a db'
        end.
(** A library call that may raise but does not touch the session. *)
Definition lift {A} (r : exn + A) : M A := λ db, (r, db).

Notation "x <- m ;; k" := (bind m (λ x, k))
  (at level 100, m at next level, right associativity).

(** [await db.execute(select(User).where(User.email == email))]: the rows
    whose email equals the given value.  A value that is not a string
    equals no email. *)
Definition select_where_email (email_value : pyval) : M (list User) :=
  λ db, (inr (filter (λ u, PStr (email u) = email_value) db), db).

(** [result.scalar_one_or_none()] *)
Definition scalar_one_or_none (rows : list User) : M (option User) :=
  match rows with
  | [] => ret None
  | [u] => ret (Some u)
  | _ => raise MultipleResultsFound
  end.

(** [db.add(row); await db.commit(); await db.refresh(row)]: the row is
    appended unless its primary key ([id], as the specification lays the
    table out) is taken, in which case the commit raises and nothing is
    stored. *)
Definition add_commit_refresh (row : User) : M unit :=
  λ db, if decide (id row ∈ id <$> db) then (inl IntegrityError, db)
        else (inr (), db ++ [row]).

(** What one request draws from its environment: the clock reading, the
    identifier [uuid.uuid4()] returns and the salt passlib generates. *)
Record Env := {
  utcnow : datetime;
  uuid4 : string;
  gensalt : string
}.

(** ** Schemas: [app/schemas/user.py] *)

(** A [UserCreate] object.  Its [email] field is an [EmailStr]: building
    the object validates the address and stores the normalised form the
    validator returns, not the text that was sent. *)
Record UserCreate := {
  uc_email : string;   (* the validated, normalised address *)
  uc_password : string
}.


Record UserResponse := {
  ur_email : string;
  ur_id : string;
  ur_is_guest : bool;
  ur_is_active : bool;
  ur_created_at : datetime;
  ur_updated_at : datetime
}.

(** [UserResponse.from_orm(user)]: the declared fields are read from the
    attributes of the same name. *)
Definition from_orm (u : User) : UserResponse := {|
  ur_email := email u;
  ur_id := id u;
  ur_is_guest := is_guest u;
  ur_is_active := is_active u;
  ur_created_at := created_at u;
  ur_updated_at := updated_at u
|}.

(** The fields of a serialised [UserResponse], in declaration order (the
    inherited [email] first). *)
Inductive field_value :=
| FStr (s : string)
| FBool (b : bool)
| FDatetime (t : datetime).

Definition UserResponse_fields (r : UserResponse) : list (string * field_value) :=
  [ ("email", FStr (ur_email r));
    ("id", FStr (ur_id r));
    ("is_guest", FBool (ur_is_guest r));
    ("is_active", FBool (ur_is_active r));
    ("created_at", FDatetime (ur_created_at r));
    ("updated_at", FDatetime (ur_updated_at r)) ].

Record Token := {
  access_token : string;
  token_type : string;
  user : option UserResponse
}.

Section Backend.

Context (pwd_context : CryptContext) (jwt : Jose) (settings : Settings).
(** The column default of [is_active] in the absent [User] class. *)
Context (is_active_default : bool).

(** ** [app/core/security.py] *)

(** Truth value of an [Optional[timedelta]]: [None] and [timedelta(0)] are
    false, every other duration is true. *)
Definition truthy (expires_delta : option timedelta) : bool :=
  match expires_delta with
  | None => false
  | Some d => negb (d =? 0)
  end.

Definition create_access_token (now : datetime) (data : pydict)
    (expires_delta : option timedelta) : string :=
  let to_encode := data in
  let expire :=
    if truthy expires_delta
    then now + default 0 expires_delta   (* a duration here, not [None] *)
    else now + timedelta_minutes (ACCESS_TOKEN_EXPIRE_MINUTES settings) in
  let to_encode := <["exp" := PDatetime expire]> to_encode in
  jwt_encode jwt to_encode (SECRET_KEY settings) (ALGORITHM settings).

Definition verify_password (plain_password hashed_password : string)
    : exn + bool :=
  ctx_verify pwd_context plain_password hashed_password.

Definition get_password_hash (salt password : string) : exn + string :=
  ctx_hash pwd_context salt password.

(** [authenticate_user] returns [False] or the user; [None] stands for
    [False] here.  The password is checked only when a user was found. *)
Definition authenticate_user (email password : string) : M (option User) :=
  rows <- select_where_email (PStr email) ;;
  user <- scalar_one_or_none rows ;;
  match user with
  | None => ret None
  | Some u =>
      ok <- lift (verify_password password (hashed_password u)) ;;
      if ok then ret (Some u) else ret None
  end.

Definition credentials_exception : exn :=
  HTTPException HTTP_401_UNAUTHORIZED "Could not validate credentials"
                (Some [("WWW-Authenticate", "Bearer")]).

(** [credentials] is the token of the [Authorization: Bearer] header. *)
Definition get_current_user (now : datetime) (credentials : string) : M User :=
  match jwt_decode jwt now credentials (SECRET_KEY settings)
                   [ALGORITHM settings] with
  | inl _ => raise credentials_exception
  | inr payload =>
      match payload !! "sub" with
      | None | Some PNone => raise credentials_exception
      | Some email =>
          rows <- select_where_email email ;;
          user <- scalar_one_or_none rows ;;
          match user with
          | None => raise credentials_exception
          | Some u => ret u
          end
      end
  end.

(** ** [app/services/user_service.py] *)

Definition create_user (env : Env) (user_data : UserCreate) : M User :=
  hashed <- lift (get_password_hash (gensalt env) (uc_password user_data)) ;;
  let db_user := {|
    id := uuid4 env;
    email := uc_email user_data;
    hashed_password := hashed;
    is_guest := false;
    is_active := is_active_default;
    created_at := utcnow env;
    updated_at := utcnow env
  |} in
  _ <- add_commit_refresh db_user ;;
  ret db_user.

Definition get_user_by_email (email : string) : M (option User) :=
  rows <- select_where_email (PStr email) ;;
  scalar_one_or_none rows.

(** ** [app/api/endpoints/auth.py] *)

Definition register (env : Env) (user : UserCreate) : M UserResponse :=
  existing_user <- get_user_by_email (uc_email user) ;;
  match existing_user with
  | Some _ =>
      raise (HTTPException HTTP_400_BAD_REQUEST "Email already registered" None)
  | None =>
      db_user <- create_user env user ;;
      ret (from_orm db_user)
  end.

(** [form_data.username] carries the email. *)
Definition login (now : datetime) (username password : string) : M Token :=
  user <- authenticate_user username password ;;
  match user with
  | None =>
      raise (HTTPException HTTP_401_UNAUTHORIZED "Incorrect email or password"
                           (Some [("WWW-Authenticate", "Bearer")]))
  | Some u =>
      let access_token_expires :=
        timedelta_minutes (ACCESS_TOKEN_EXPIRE_MINUTES settings) in
      let access_token :=
        create_access_token now {["sub" := PStr (email u)]}
                            (Some access_token_expires) in
      ret {| access_token := access_token;
             token_type := "bearer";
             user := Some (from_orm u) |}
  end.

End Backend.

(** ** Stores that sequential registration can produce *)

(** The tables reachable from the empty one by [register] requests, failed
    ones included. *)
Inductive reachable (pwd_context : CryptContext) (is_active_default : bool)
    : DB → Prop :=
| reachable_empty : reachable pwd_context is_active_default []
| reachable_register env user db :
    reachable pwd_context is_active_default db →
    reachable pwd_context is_active_default
      (register pwd_context is_active_default env user db).2.

(** What [create_user] writes into a row. *)
Definition registered_row (pwd_context : CryptContext)
    (is_active_default : bool) (u : User) : Prop :=
  is_guest u = false ∧
  is_active u = is_active_default ∧
  ∃ salt password,
    get_password_hash pwd_context salt password = inr (hashed_password u).

(** ** Structured logging: [app/core/logging_config.py] *)

Module logging_config.

(** A Python [dict] as the formatter uses it: [json.dumps] writes the keys
    in insertion order, so the order is kept. *)
Abbreviation odict := (list (string * pyval)).

(** [d[k] = v]: an existing key keeps its place and gets the new value, a
    new key goes to the end. *)
Fixpoint dict_set (k : string) (v : pyval) (d : odict) : odict :=
  match d with
  | [] => [(k, v)]
  | (k', v') :: rest =>
      if decide (k = k') then (k, v) :: rest
      else (k', v') :: dict_set k v rest
  end.

(** [d.update(other)]: the items of [other] are assigned in their order. *)
Definition dict_update (d other : odict) : odict :=
  foldl (λ acc kv, dict_set kv.1 kv.2 acc) d other.

(** [d.get(k)] *)
Fixpoint dict_get (k : string) (d : odict) : option pyval :=
  match d with
  | [] => None
  | (k', v') :: rest => if decide (k = k') then Some v' else dict_get k rest
  end.

(** The attributes of a [logging.LogRecord] that [format] reads.
    [getMessage] is the result of [record.getMessage()]; [extra] is [None]
    when the record has no attribute of that name, and is taken to be a
    dict otherwise; [exc_info] is [None] or the exception triple. *)
Record LogRecord (ExcInfo : Type) := {
  levelname : string;
  name : string;
  getMessage : string;
  module : string;
  funcName : string;
  lineno : Z;
  extra : option odict;
  exc_info : option ExcInfo
}.
Arguments levelname {_} _.
Arguments name {_} _.
Arguments getMessage {_} _.
Arguments module {_} _.
Arguments funcName {_} _.
Arguments lineno {_} _.
Arguments extra {_} _.
Arguments exc_info {_} _.

(** The keys [format] writes itself, in the order it writes them. *)
Definition base_keys : list string :=
  ["timestamp"; "level"; "logger"; "message"; "module"; "function"; "line"].

Section JSONFormatter.

(** [logging.Formatter.formatException], [datetime.isoformat] and
    [json.dumps] are the libraries'. *)
Context {ExcInfo : Type} (formatException : ExcInfo → string).
Context (isoformat : datetime → string) (json_dumps : odict → string).

(** The dictionary [format] builds, as it stands when [json.dumps] is
    called. *)
Definition log_obj (now : datetime) (record : LogRecord ExcInfo) : odict :=
  let log_obj : odict :=
    [ ("timestamp", PStr (isoformat now));
      ("level", PStr (levelname record));
      ("logger", PStr (name record));
      ("message", PStr (getMessage record));
      ("module", PStr (module record));
      ("function", PStr (funcName record));
      ("line", PInt (lineno record)) ] in
  let log_obj :=
    match extra record with
    | Some fields => dict_update log_obj fields
    | None => log_obj
    end in
  match exc_info record with
  | Some info => dict_set "exception" (PStr (formatException info)) log_obj
  | None => log_obj
  end.

Definition format (now : datetime) (record : LogRecord ExcInfo) : string :=
  json_dumps (log_obj now record).

End JSONFormatter.

(** *** [setup_logging] *)

Inductive Formatter :=
| JSONFormatter
| PlainFormatter (fmt : string).   (* [logging.Formatter(fmt)] *)

(** A handler object: its level and its formatter.  Two handlers are the
    same here when they agree on both. *)
Record Handler := {
  handler_level : Z;
  handler_formatter : option Formatter
}.

#[global] Instance Formatter_eq_dec : EqDecision Formatter.
Proof. solve_decision. Defined.
#[global] Instance Handler_eq_dec : EqDecision Handler.
Proof. solve_decision. Defined.

(** The attributes of a logger that [setup_logging] touches. *)
Record Logger := {
  logger_level : Z;
  handlers : list Handler;
  propagate : bool
}.

(** The logging module's state: the root logger and the named ones. *)
Record Logging := {
  root : Logger;
  loggerDict : gmap string Logger
}.

Definition NOTSET : Z := 0.
Definition INFO : Z := 20.

(** A logger as [logging.getLogger(name)] creates it. *)
Definition new_logger : Logger :=
  {| logger_level := NOTSET; handlers := []; propagate := true |}.

(** [logging.StreamHandler()] *)
Definition new_handler : Handler :=
  {| handler_level := NOTSET; handler_formatter := None |}.

(** [list.remove(x)] for an [x] that occurs: the first occurrence goes. *)
Fixpoint list_remove_first (h : Handler) (hs : list Handler) : list Handler :=
  match hs with
  | [] => []
  | h' :: rest => if decide (h = h') then rest else h' :: list_remove_first h rest
  end.

(** [Logger.removeHandler]: nothing happens for a handler that is not
    attached. *)
Definition removeHandler (h : Handler) (lg : Logger) : Logger :=
  if decide (h ∈ handlers lg)
  then {| logger_level := logger_level lg;
          handlers := list_remove_first h (handlers lg);
          propagate := propagate lg |}
  else lg.

(** [Logger.addHandler]: a handler already attached is not attached again. *)
Definition addHandler (h : Handler) (lg : Logger) : Logger :=
  if decide (h ∈ handlers lg) then lg
  else {| logger_level := logger_level lg;
          handlers := handlers lg ++ [h];
          propagate := propagate lg |}.

Definition setLevel (level : Z) (lg : Logger) : Logger :=
  {| logger_level := level; handlers := handlers lg;
     propagate := propagate lg |}.

Definition uvicorn_loggers : list string :=
  ["uvicorn"; "uvicorn.error"; "uvicorn.access"].

Definition plain_format : string :=
  "%(asctime)s - %(name)s - %(levelname)s - %(message)s".

Section setup.

(** [str.upper], [str.lower] and the integer attributes of the [logging]
    module by name are Python's; [LOG_LEVEL] and [LOG_FORMAT] are the two
    settings read. *)
Context (upper lower : string → string) (logging_attr : string → option Z).
Context (LOG_LEVEL LOG_FORMAT : string).

(** [getattr(logging, settings.LOG_LEVEL.upper(), logging.INFO)] *)
Definition log_level : Z := default INFO (logging_attr (upper LOG_LEVEL)).

(** The handler [setup_logging] creates and configures. *)
Definition console_handler : Handler :=
  let console_handler := new_handler in
  let console_handler :=
    {| handler_level := log_level;
       handler_formatter := handler_formatter console_handler |} in
  let formatter :=
    if decide (lower LOG_FORMAT = "json") then JSONFormatter
    else PlainFormatter plain_format in
  {| handler_level := handler_level console_handler;
     handler_formatter := Some formatter |}.

(** The body of the loop over the uvicorn logger names. *)
Definition configure_uvicorn (st : Logging) (logger_name : string) : Logging :=
  let uvicorn_logger := default new_logger (loggerDict st !! logger_name) in
  let uvicorn_logger :=
    {| logger_level := logger_level uvicorn_logger; handlers := [];
       propagate := propagate uvicorn_logger |} in
  let uvicorn_logger := addHandler console_handler uvicorn_logger in
  let uvicorn_logger := setLevel log_level uvicorn_logger in
  let uvicorn_logger :=
    {| logger_level := logger_level uvicorn_logger;
       handlers := handlers uvicorn_logger; propagate := false |} in
  {| root := root st;
     loggerDict := <[logger_name := uvicorn_logger]> (loggerDict st) |}.

Definition setup_logging (st : Logging) : Logging :=
  let logger := root st in
  let logger := setLevel log_level logger in
  (* the loop runs over a copy of the handler list *)
  let logger := foldl (λ lg h, removeHandler h lg) logger (handlers logger) in
  let logger := addHandler console_handler logger in
  let st := {| root := logger; loggerDict := loggerDict st |} in
  foldl configure_uvicorn st uvicorn_loggers.

End setup.

End logging_config.

(** ** Reference implementations of the library interfaces *)

Module Ref.

(** A self-delimiting text codec for numbers and strings. *)
Fixpoint enc_pos (p : positive) : string :=
  match p with
  | xI q => String "1"%char (enc_pos q)
  | xO q => String "0"%char (enc_pos q)
  | xH => "."
  end.

Fixpoint dec_pos (s : string) : option (positive * string) :=
  match s with
  | EmptyString => None
  | String c r =>
      if Ascii.eqb c "."%char then Some (xH, r)
      else if Ascii.eqb c "1"%char then prod_map xI Datatypes.id <$> dec_pos r
      else if Ascii.eqb c "0"%char then prod_map xO Datatypes.id <$> dec_pos r
      else None
  end.

Definition enc_Z (z : Z) : string :=
  match z with
  | Z0 => "z"
  | Zpos p => String "+"%char (enc_pos p)
  | Zneg p => String "-"%char (enc_pos p)
  end.

Definition dec_Z (s : string) : option (Z * string) :=
  match s with
  | EmptyString => None
  | String c r =>
      if Ascii.eqb c "z"%char then Some (0, r)
      else if Ascii.eqb c "+"%char then prod_map Zpos Datatypes.id <$> dec_pos r
      else if Ascii.eqb c "-"%char then prod_map Zneg Datatypes.id <$> dec_pos r
      else None
  end.

Fixpoint take_str (n : nat) (s : string) : option (string * string) :=
  match n with
  | O => Some (EmptyString, s)
  | S n' =>
      match s with
      | EmptyString => None
      | String c r => prod_map (String c) Datatypes.id <$> take_str n' r
      end
  end.

Definition enc_str (s : string) : string :=
  enc_Z (Z.of_nat (String.length s)) +:+ s.

Definition dec_str (s : string) : option (string * string) :=
  match dec_Z s with
  | Some (n, r) => take_str (Z.to_nat n) r
  | None => None
  end.

Fixpoint strip_prefix (p s : string) : option string :=
  match p with
  | EmptyString => Some s
  | String c p' =>
      match s with
      | EmptyString => None
      | String d s' => if Ascii.eqb c d then strip_prefix p' s' else None
      end
  end.

(** A stand-in for the bcrypt context.  It keeps what matters to the
    callers: hash strings start with the scheme's marker and carry the salt,
    [verify] first identifies the scheme by that marker and raises
    [UnknownHashError] for a string it cannot identify.  The digest is left
    out: the secret is stored as is, so this is not a one-way function. *)
Definition bcrypt_ident : string := "$2b$12$".

(** bcrypt refuses a secret that contains a NUL character. *)
Fixpoint has_nul (s : string) : bool :=
  match s with
  | EmptyString => false
  | String c r => Ascii.eqb c "000"%char || has_nul r
  end.

(** The hash string for a secret the scheme accepts. *)
Definition render (salt secret : string) : string :=
  bcrypt_ident +:+ enc_str secret +:+ salt.

Definition hash (salt secret : string) : exn + string :=
  if has_nul secret then inl PasswordValueError
  else inr (render salt secret).

(** The checks come in passlib's order: the scheme is identified, the hash
    string is parsed, and only then is the secret looked at. *)
Definition verify (secret hash_string : string) : exn + bool :=
  match strip_prefix bcrypt_ident hash_string with
  | None => inl UnknownHashError
  | Some body =>
      match dec_str body with
      | None => inl MalformedHashError
      | Some (stored, _) =>
          if has_nul secret then inl PasswordValueError
          else inr (String.eqb stored secret)
      end
  end.

Definition pwd_context : CryptContext :=
  {| ctx_hash := hash; ctx_verify := verify |}.

(** A stand-in for python-jose.  A token carries the expiry in seconds, the
    signing key in place of a signature, and the subject if there is one.
    Decoding checks, in the library's order, the structure, the signature
    and the expiry. *)
Definition encode (claims : pydict) (key algorithm : string) : string :=
  let subject :=
    match claims !! "sub" with
    | Some (PStr s) => String "s"%char s
    | _ => "n"
    end in
  match claims !! "exp" with
  | Some (PDatetime t) => enc_Z (timegm t) +:+ enc_str key +:+ subject
  | Some (PInt n) => enc_Z n +:+ enc_str key +:+ subject
  | _ => ""
  end.

Definition decode (now : datetime) (token key : string)
    (algorithms : list string) : jwt_error + pydict :=
  match dec_Z token with
  | None => inl Malformed
  | Some (exp, r1) =>
      match dec_str r1 with
      | None => inl Malformed
      | Some (k, r2) =>
          if negb (String.eqb k key) then inl InvalidSignature
          else if exp <? timegm now then inl ExpiredSignatureError
          else match r2 with
               | EmptyString => inl Malformed
               | String c s =>
                   if Ascii.eqb c "s"%char then inr (sub_exp_claims s (PInt exp))
                   else if Ascii.eqb c "n"%char then inr {["exp" := PInt exp]}
                   else inl Malformed
               end
      end
  end.

Definition jwt : Jose := {| jwt_encode := encode; jwt_decode := decode |}.

(** A stand-in for the [EmailStr] validator.  It keeps what matters to the
    callers: an address needs a local part and a domain around one [@], and
    the address returned has the domain in lower case. *)
Definition lower_ascii (c : ascii) : ascii :=
  let n := N_of_ascii c in
  if ((65 <=? n) && (n <=? 90))%N then ascii_of_N (n + 32) else c.

Fixpoint lower (s : string) : string :=
  match s with
  | EmptyString => EmptyString
  | String c r => String (lower_ascii c) (lower r)
  end.



End Ref.

(** ** A concrete run *)

(** The scenario of the specification: alice registers on an empty store. *)
Module Scenario.

Definition alice : UserCreate :=
  {| uc_email := "alice@example.com"; uc_password := "secret123" |}.

(** The first request arrives five seconds after the epoch. *)
Definition env1 : Env :=
  {| utcnow := 5000000;
     uuid4 := "3f2b8c1e-6d4a-4e0b-9a57-0c1d2e3f4a5b";
     gensalt := "N9qo8uLOickgx2ZMRZoMye" |}.

Definition alice_row : User :=
  {| id := "3f2b8c1e-6d4a-4e0b-9a57-0c1d2e3f4a5b";
     email := "alice@example.com";
     hashed_password := Ref.render "N9qo8uLOickgx2ZMRZoMye" "secret123";
     is_guest := false;
     is_active := true;
     created_at := 5000000;
     updated_at := 5000000 |}.

Definition db_alice : DB := [alice_row].

(** A token whose payload has an expiry and no subject. *)
Definition token_without_sub : string :=
  Ref.encode {["exp" := PInt 10]} (SECRET_KEY default_settings)
             (ALGORITHM default_settings).

(** A bearer token for alice made with a zero [expires_delta] at second 5. *)
Definition zero_delta_token : string :=
  create_access_token Ref.jwt default_settings 5000000
    {["sub" := PStr "alice@example.com"]} (Some 0).

End Scenario.

(** ** Stores outside the run of registrations *)

Module Edge.

(** The row [tests/test_api.py] builds: its hash is the literal "hashed". *)
Definition test_row : User :=
  {| id := "test-id";
     email := "test@example.com";
     hashed_password := "hashed";
     is_guest := false;
     is_active := true;
     created_at := 0;
     updated_at := 0 |}.

Definition db_test : DB := [test_row].

(** Two rows with alice's email, as two racing registrations leave them. *)
Definition alice_again : User :=
  {| id := "9a1c7e52-0b3d-4f68-8e21-5d6f7a8b9c0d";
     email := "alice@example.com";
     hashed_password := Ref.render "WZ1dP3mQx0LrT8uVbYc2Ke" "secret123";
     is_guest := false;
     is_active := true;
     created_at := 5000001;
     updated_at := 5000001 |}.

Definition db_twice : DB := [Scenario.alice_row; alice_again].

(** A password with a NUL character in it: [a\x00b]. *)
Definition nul_password : string :=
  String "a"%char (String "000"%char (String "b"%char EmptyString)).

(** A second registration, for bob. *)
Definition bob : UserCreate :=
  {| uc_email := "bob@example.com"; uc_password := "hunter2" |}.

Definition env2 : Env :=
  {| utcnow := 8000000;
     uuid4 := "c4d5e6f7-1a2b-4c3d-8e9f-0a1b2c3d4e5f";
     gensalt := "Q7xVn2LkR9sTfG4hJm1ZaB" |}.



(** Alice's row with the activity flag cleared. *)
Definition inactive_row : User :=
  {| id := id Scenario.alice_row;
     email := email Scenario.alice_row;
     hashed_password := hashed_password Scenario.alice_row;
     is_guest := false;
     is_active := false;
     created_at := created_at Scenario.alice_row;
     updated_at := 9000000 |}.

(** A configuration whose token lifetime is below zero. *)
Definition negative_lifetime : Settings :=
  {| SECRET_KEY := SECRET_KEY default_settings;
     ALGORITHM := ALGORITHM default_settings;
     ACCESS_TOKEN_EXPIRE_MINUTES := -1 |}.

(** A log record whose extra fields reuse two of the formatter's keys; the
    exception information is already formatted text. *)
Definition noisy_record : logging_config.LogRecord string :=
  {| logging_config.levelname := "INFO";
     logging_config.name := "main";
     logging_config.getMessage := "Request: GET /health";
     logging_config.module := "main";
     logging_config.funcName := "log_requests";
     logging_config.lineno := 59;
     logging_config.extra :=
       Some [("message", PStr "replaced"); ("request_id", PStr "r-1");
             ("exception", PStr "from extra")];
     logging_config.exc_info := Some "Traceback (most recent call last)" |}.

(** A logging state with handlers already attached, one of them twice. *)
Definition stale_handler : logging_config.Handler :=
  {| logging_config.handler_level := 10;
     logging_config.handler_formatter := None |}.

Definition stale_logging : logging_config.Logging :=
  {| logging_config.root :=
       {| logging_config.logger_level := 30;
          logging_config.handlers :=
            [stale_handler; logging_config.new_handler; stale_handler];
          logging_config.propagate := true |};
     logging_config.loggerDict :=
       {["uvicorn" :=
           {| logging_config.logger_level := 20;
              logging_config.handlers := [stale_handler];
              logging_config.propagate := true |}]} |}.

End Edge.

(** * Properties *)

(** ** The reference implementations meet the contracts *)

Lemma append_cons c s r : String c s +:+ r = String c (s +:+ r).
Proof. reflexivity. Qed.

Lemma dec_enc_pos p r : Ref.dec_pos (Ref.enc_pos p +:+ r) = Some (p, r).
Proof.
  induction p as [q IH|q IH|]; cbn [Ref.enc_pos]; rewrite append_cons;
    cbn [Ref.dec_pos]; [rewrite IH..|]; reflexivity.
Qed.

Lemma dec_enc_Z z r : Ref.dec_Z (Ref.enc_Z z +:+ r) = Some (z, r).
Proof.
  destruct z as [|p|p]; cbn [Ref.enc_Z]; rewrite append_cons;
    cbn [Ref.dec_Z]; [|rewrite dec_enc_pos..]; reflexivity.
Qed.

Lemma take_str_append s r :
  Ref.take_str (String.length s) (s +:+ r) = Some (s, r).
Proof.
  induction s as [|c s IH]; [reflexivity|].
  rewrite append_cons. cbn [String.length Ref.take_str]. by rewrite IH.
Qed.

Lemma dec_enc_str s r : Ref.dec_str (Ref.enc_str s +:+ r) = Some (s, r).
Proof.
  unfold Ref.dec_str, Ref.enc_str.
  assert (Hassoc : ∀ a b c : string, (a +:+ b) +:+ c = a +:+ (b +:+ c)).
  { intros a b c. induction a as [|x a IH]; [reflexivity|].
    rewrite !append_cons. by rewrite IH. }
  rewrite Hassoc, dec_enc_Z, Nat2Z.id. apply take_str_append.
Qed.

Lemma strip_prefix_append p r : Ref.strip_prefix p (p +:+ r) = Some r.
Proof.
  induction p as [|c p IH]; [reflexivity|].
  rewrite append_cons. cbn [Ref.strip_prefix].
  by rewrite Ascii.eqb_refl.
Qed.

Lemma ref_verify_hash salt secret other :
  Ref.verify other (Ref.render salt secret)
  = if Ref.has_nul other then inl PasswordValueError
    else inr (String.eqb secret other).
Proof.
  unfold Ref.verify, Ref.render.
  by rewrite strip_prefix_append, dec_enc_str.
Qed.

Lemma ref_hash_inr salt secret h :
  Ref.hash salt secret = inr h ↔
  Ref.has_nul secret = false ∧ h = Ref.render salt secret.
Proof.
  unfold Ref.hash. destruct (Ref.has_nul secret); split.
  - done.
  - by intros [? _].
  - by intros [= <-].
  - by intros [_ ->].
Qed.

Lemma ref_crypt_spec : CryptContextSpec Ref.pwd_context.
Proof.
  split; cbn [ctx_hash ctx_verify Ref.pwd_context].
  - intros salt salt' secret h [Hnul _]%ref_hash_inr.
    exists (Ref.render salt' secret). by apply ref_hash_inr.
  - intros salt secret h [Hnul ->]%ref_hash_inr.
    by rewrite ref_verify_hash, Hnul, String.eqb_refl.
  - intros salt secret h salt' other h' [_ ->]%ref_hash_inr
      [Hnul _]%ref_hash_inr.
    rewrite ref_verify_hash, Hnul. eauto.
Qed.

Lemma ref_jose_spec settings : JoseSpec Ref.jwt settings.
Proof.
  split. intros now sub exp. cbn [jwt_encode jwt_decode Ref.jwt].
  unfold Ref.encode, Ref.decode, sub_exp_claims.
  rewrite lookup_insert_eq, lookup_insert_ne, lookup_singleton_eq by done.
  rewrite dec_enc_Z, dec_enc_str, String.eqb_refl. cbn [negb].
  destruct (timegm exp <? timegm now); [reflexivity|].
  by rewrite Ascii.eqb_refl.
Qed.

(** ** Looking up a user by email *)

Section Lookup.

Implicit Types (db : DB) (e : string) (u : User).

Lemma select_absent db e :
  e ∉ email <$> db → filter (λ u, PStr (email u) = PStr e) db = [].
Proof.
  induction db as [|u db IH]; [done|].
  rewrite fmap_cons, not_elem_of_cons. intros [Hne Hnot].
  rewrite filter_cons_False by congruence. auto.
Qed.

Lemma select_unique db e :
  NoDup (email <$> db) → e ∈ email <$> db →
  ∃ u, u ∈ db ∧ email u = e ∧ filter (λ u, PStr (email u) = PStr e) db = [u].
Proof.
  induction db as [|u db IH]; [by rewrite elem_of_nil|].
  rewrite fmap_cons, NoDup_cons, elem_of_cons. intros [Hnot Hnd] [->|Hin].
  - exists u. split; [left|split; [done|]].
    rewrite filter_cons_True by done. by rewrite select_absent.
  - destruct (IH Hnd Hin) as (v & Hv & <- & Hf). exists v.
    split; [by right|split; [done|]].
    rewrite filter_cons_False; [done|]. intros [= Heq]. by rewrite Heq in Hnot.
Qed.


Lemma select_app db1 db2 (v : pyval) :
  filter (λ u, PStr (email u) = v) (db1 ++ db2)
  = filter (λ u, PStr (email u) = v) db1 ++ filter (λ u, PStr (email u) = v) db2.
Proof. apply filter_app. Qed.

Lemma get_user_by_email_absent db e :
  e ∉ email <$> db → get_user_by_email e db = (inr None, db).
Proof.
  intros H. unfold get_user_by_email, bind, select_where_email.
  by rewrite select_absent.
Qed.

Lemma get_user_by_email_present db e :
  NoDup (email <$> db) → e ∈ email <$> db →
  ∃ u, u ∈ db ∧ email u = e ∧ get_user_by_email e db = (inr (Some u), db).
Proof.
  intros Hnd Hin. destruct (select_unique db e Hnd Hin) as (u & Hu & He & Hf).
  exists u. split; [done|split; [done|]].
  unfold get_user_by_email, bind, select_where_email. by rewrite Hf.
Qed.

End Lookup.

(** ** Registration, step by step *)

Section Register.

Context (pwd_context : CryptContext) (is_active_default : bool).
Implicit Types (db : DB) (env : Env) (user : UserCreate).

Local Abbreviation handle_register :=
  (register pwd_context is_active_default).

(** A taken email stops the handler before the service is called. *)
Lemma register_present db env user :
  NoDup (email <$> db) → uc_email user ∈ email <$> db →
  handle_register env user db
  = (inl (HTTPException HTTP_400_BAD_REQUEST "Email already registered" None),
     db).
Proof.
  intros Hnd Hin.
  destruct (get_user_by_email_present _ _ Hnd Hin) as (u & _ & _ & Hget).
  unfold register, bind. by rewrite Hget.
Qed.

(** A free email, a password the scheme refuses: the hashing exception
    leaves the handler and nothing is stored. *)
Lemma register_hash_error db env user (e : exn) :
  uc_email user ∉ email <$> db →
  get_password_hash pwd_context (gensalt env) (uc_password user) = inl e →
  handle_register env user db = (inl e, db).
Proof.
  intros Hemail Hhash.
  unfold register, bind. rewrite get_user_by_email_absent by done.
  unfold create_user, bind, lift. by rewrite Hhash.
Qed.

(** A free email, an accepted password and a free identifier: exactly one
    row is appended, and the response is its public view. *)
Lemma register_absent db env user (h : string) :
  uc_email user ∉ email <$> db → uuid4 env ∉ id <$> db →
  get_password_hash pwd_context (gensalt env) (uc_password user) = inr h →
  ∃ row,
    handle_register env user db = (inr (from_orm row), db ++ [row]) ∧
    id row = uuid4 env ∧
    email row = uc_email user ∧
    hashed_password row = h ∧
    is_guest row = false.
Proof.
  intros Hemail Hid Hhash. eexists. split.
  - unfold register, bind. rewrite get_user_by_email_absent by done.
    unfold create_user, bind, lift, add_commit_refresh. rewrite Hhash.
    cbn [id]. rewrite decide_False by done. reflexivity.
  - done.
Qed.

(** A free email, an accepted password and a taken identifier: the commit
    fails, nothing is stored. *)
Lemma register_id_taken db env user (h : string) :
  uc_email user ∉ email <$> db → uuid4 env ∈ id <$> db →
  get_password_hash pwd_context (gensalt env) (uc_password user) = inr h →
  handle_register env user db = (inl IntegrityError, db).
Proof.
  intros Hemail Hid Hhash.
  unfold register, bind. rewrite get_user_by_email_absent by done.
  unfold create_user, bind, lift, add_commit_refresh. rewrite Hhash.
  cbn [id]. by rewrite decide_True by done.
Qed.

(** Registration keeps emails distinct. *)
Lemma register_preserves_unique db env user :
  NoDup (email <$> db) → NoDup (email <$> (handle_register env user db).2).
Proof.
  intros Hnd.
  destruct (decide (uc_email user ∈ email <$> db)) as [Hin|Hnot].
  { by rewrite register_present. }
  destruct (get_password_hash pwd_context (gensalt env) (uc_password user))
    as [e|h] eqn:Hhash.
  { by rewrite (register_hash_error _ _ _ e). }
  destruct (decide (uuid4 env ∈ id <$> db)) as [Hid|Hid].
  { by rewrite (register_id_taken _ _ _ h). }
  destruct (register_absent db env user h Hnot Hid Hhash)
    as (row & -> & _ & He & _).
  cbn [snd]. rewrite fmap_app. apply NoDup_app. split; [done|].
  split; [|apply NoDup_singleton].
  intros e He1 ->%list_elem_of_singleton. by rewrite He in He1.
Qed.

Lemma reachable_unique db :
  reachable pwd_context is_active_default db → NoDup (email <$> db).
Proof.
  induction 1 as [|env user db _ IH]; [apply NoDup_nil_2|].
  by apply register_preserves_unique.
Qed.

End Register.

(** ** The properties of the specification *)

Section Claims.

Context (pwd_context : CryptContext) (jwt : Jose) (settings : Settings).
Context (is_active_default : bool).
Implicit Types (db : DB) (env : Env) (now : datetime).

Local Abbreviation handle_register :=
  (register pwd_context is_active_default).
Local Abbreviation handle_login := (login pwd_context jwt settings).
Local Abbreviation current_user := (get_current_user jwt settings).
Local Abbreviation issue := (create_access_token jwt settings).

(** The expiry [login] asks for. *)
Local Abbreviation login_expiry now :=
  (now + timedelta_minutes (ACCESS_TOKEN_EXPIRE_MINUTES settings)).

Lemma select_absent_value db (v : pyval) :
  v ∉ (λ u, PStr (email u)) <$> db →
  filter (λ u, PStr (email u) = v) db = [].
Proof.
  induction db as [|u db IH]; [done|].
  rewrite fmap_cons, not_elem_of_cons. intros [Hne Hnot].
  rewrite filter_cons_False by congruence. auto.
Qed.

(** The token [login] returns for a stored user. *)
Lemma login_token_expiry now (sub : string) :
  issue now {["sub" := PStr sub]}
        (Some (timedelta_minutes (ACCESS_TOKEN_EXPIRE_MINUTES settings)))
  = jwt_encode jwt (sub_exp_claims sub (PDatetime (login_expiry now)))
               (SECRET_KEY settings) (ALGORITHM settings).
Proof.
  unfold create_access_token, sub_exp_claims.
  by destruct (truthy _).
Qed.

(** [login] for a user the lookup finds and whose password verifies. *)
Lemma login_success now db u p :
  filter (λ v, PStr (email v) = PStr (email u)) db = [u] →
  verify_password pwd_context p (hashed_password u) = inr true →
  handle_login now (email u) p db
  = (inr {| access_token :=
              issue now {["sub" := PStr (email u)]}
                (Some (timedelta_minutes (ACCESS_TOKEN_EXPIRE_MINUTES settings)));
            token_type := "bearer";
            user := Some (from_orm u) |}, db).
Proof.
  intros Hf Hv.
  unfold login, authenticate_user, bind, select_where_email, lift.
  rewrite Hf. cbn [scalar_one_or_none ret]. by rewrite Hv.
Qed.


(** C2 (what the code does).  A token issued with [expires_delta] equal to
    [timedelta(0)] does not expire at the time of issue: the test
    [if expires_delta:] is false for the zero duration, so the token gets the
    configured default lifetime, exactly as when no duration is passed. *)
Theorem zero_delta_gets_default_expiry now (data : pydict) :
  issue now data (Some 0)
  = jwt_encode jwt
      (<["exp" := PDatetime
                    (now + timedelta_minutes (ACCESS_TOKEN_EXPIRE_MINUTES settings))]>
         data)
      (SECRET_KEY settings) (ALGORITHM settings) ∧
  issue now data (Some 0) = issue now data None.
Proof. split; reflexivity. Qed.

(** Every other duration a caller passes is used. *)
Lemma nonzero_delta_overrides now (data : pydict) (d : timedelta) :
  d ≠ 0 →
  issue now data (Some d)
  = jwt_encode jwt (<["exp" := PDatetime (now + d)]> data)
               (SECRET_KEY settings) (ALGORITHM settings).
Proof.
  intros Hd. unfold create_access_token, truthy.
  by destruct (Z.eqb_spec d 0).
Qed.

(** With a positive default lifetime, the zero-duration token still
    authenticates after it was issued. *)
Lemma zero_delta_token_accepted_later now (sub : string) t :
  JoseSpec jwt settings →
  timegm t ≤ timegm (login_expiry now) →
  jwt_decode jwt t (issue now {["sub" := PStr sub]} (Some 0))
             (SECRET_KEY settings) [ALGORITHM settings]
  = inr (sub_exp_claims sub (PInt (timegm (login_expiry now)))).
Proof.
  intros Hjose Ht.
  change (issue now {["sub" := PStr sub]} (Some 0))
    with (jwt_encode jwt (sub_exp_claims sub (PDatetime (login_expiry now)))
                     (SECRET_KEY settings) (ALGORITHM settings)).
  rewrite (decode_encode _ _ Hjose).
  by destruct (Z.ltb_spec (timegm (login_expiry now)) (timegm t)); [lia|].
Qed.

(** C3. On a store whose emails are distinct, registering an email that is
    already stored fails with status 400, "Email already registered", and
    leaves the store as it was. *)
Theorem duplicate_email_rejected env (user : UserCreate) db :
  NoDup (email <$> db) → uc_email user ∈ email <$> db →
  handle_register env user db
  = (inl (HTTPException 400 "Email already registered" None), db).
Proof. apply register_present. Qed.

(** C4 (as the code has it).  A login with a wrong password for a stored
    email, on which the password check returns [False], and a login for an
    email that is not stored fail with the same exception: status 401,
    "Incorrect email or password", header [WWW-Authenticate: Bearer]; the
    store is untouched in both. *)
Theorem login_failures_indistinguishable now db (u : User) (p1 e2 p2 : string) :
  NoDup (email <$> db) → u ∈ db →
  verify_password pwd_context p1 (hashed_password u) = inr false →
  e2 ∉ email <$> db →
  handle_login now (email u) p1 db
  = (inl (HTTPException 401 "Incorrect email or password"
                        (Some [("WWW-Authenticate", "Bearer")])), db) ∧
  handle_login now e2 p2 db = handle_login now (email u) p1 db.
Proof.
  intros Hnd Hu Hv He2.
  assert (Hin : email u ∈ email <$> db) by (by apply list_elem_of_fmap_2).
  destruct (select_unique db (email u) Hnd Hin) as (v & Hv_in & Hv_email & Hf).
  assert (v = u) as ->.
  { destruct (list_elem_of_lookup_1 _ _ Hv_in) as [i Hi].
    destruct (list_elem_of_lookup_1 _ _ Hu) as [j Hj].
    assert (i = j) as ->; [|congruence].
    eapply NoDup_lookup; [exact Hnd|..]; rewrite list_lookup_fmap.
    - rewrite Hi. cbn. by rewrite Hv_email.
    - by rewrite Hj. }
  assert (H1 : handle_login now (email u) p1 db
    = (inl (HTTPException 401 "Incorrect email or password"
                          (Some [("WWW-Authenticate", "Bearer")])), db)).
  { unfold login, authenticate_user, bind, select_where_email, lift.
    rewrite Hf. cbn [scalar_one_or_none ret]. by rewrite Hv. }
  split; [exact H1|]. rewrite H1.
  unfold login, authenticate_user, bind, select_where_email.
  by rewrite select_absent.
Qed.

(** C5. A token that [jwt.decode] rejects, for whatever reason (malformed,
    bad signature, expired, bad claims), and a token that decodes to a
    subject no stored user has, are refused in the same way: status 401,
    "Could not validate credentials", header [WWW-Authenticate: Bearer];
    the store is untouched. *)
Theorem invalid_token_gets_generic_401 now (token : string) db :
  (∃ err, jwt_decode jwt now token (SECRET_KEY settings) [ALGORITHM settings]
          = inl err) ∨
  (∃ payload subject,
      jwt_decode jwt now token (SECRET_KEY settings) [ALGORITHM settings]
        = inr payload ∧
      payload !! "sub" = Some subject ∧
      subject ∉ (λ u, PStr (email u)) <$> db) →
  current_user now token db
  = (inl (HTTPException 401 "Could not validate credentials"
                        (Some [("WWW-Authenticate", "Bearer")])), db).
Proof.
  intros [[err Hdec]|(payload & subject & Hdec & Hsub & Hnot)];
    unfold get_current_user; rewrite Hdec; [reflexivity|].
  rewrite Hsub. destruct subject as [|e|n|t]; [reflexivity|..];
    unfold bind, select_where_email; by rewrite select_absent_value.
Qed.

(** C10. A token that decodes under the server's key but whose payload has
    no ["sub"] entry, or has [None] there, is refused with the same 401
    response as an invalid token; no user is looked up. *)
Theorem missing_subject_rejected now (token : string) db (payload : pydict) :
  jwt_decode jwt now token (SECRET_KEY settings) [ALGORITHM settings]
    = inr payload →
  payload !! "sub" = None ∨ payload !! "sub" = Some PNone →
  current_user now token db
  = (inl (HTTPException 401 "Could not validate credentials"
                        (Some [("WWW-Authenticate", "Bearer")])), db).
Proof.
  intros Hdec [Hsub|Hsub]; unfold get_current_user;
    by rewrite Hdec, Hsub.
Qed.

(** C8. In every store reached from the empty one by [register] requests,
    no two rows share an email, and a request for a stored email is turned
    down with status 400 before anything is inserted. *)
Theorem reachable_emails_unique db :
  reachable pwd_context is_active_default db →
  NoDup (email <$> db) ∧
  ∀ env (user : UserCreate),
    uc_email user ∈ email <$> db →
    handle_register env user db
    = (inl (HTTPException 400 "Email already registered" None), db).
Proof.
  intros Hreach. pose proof (reachable_unique _ _ _ Hreach) as Hnd.
  split; [exact Hnd|]. intros env user Hin. by apply register_present.
Qed.

(** C9. A successful [register] returns the public view of the row it
    stored: the six fields [email], [id], [is_guest], [is_active],
    [created_at], [updated_at], with the identifier generated in this call,
    not used by any earlier row, and [is_guest] false.  The outcome of
    [register] is the same for any two passwords the hashing scheme
    accepts; a successful [login]
    returns a bearer token made from the user's email and the clock and the
    public view of the stored user; the public view does not depend on the
    stored hash. *)
Theorem responses_are_public_views :
  (∀ env (user : UserCreate) db resp db',
      handle_register env user db = (inr resp, db') →
      fst <$> UserResponse_fields resp
      = ["email"; "id"; "is_guest"; "is_active"; "created_at"; "updated_at"] ∧
      ur_id resp = uuid4 env ∧ (ur_id resp ∉ id <$> db) ∧
      ur_is_guest resp = false ∧ ur_email resp = uc_email user ∧
      ∃ row, db' = db ++ [row] ∧ resp = from_orm row) ∧
  (∀ env (e p p' : string) db (h h' : string),
      get_password_hash pwd_context (gensalt env) p = inr h →
      get_password_hash pwd_context (gensalt env) p' = inr h' →
      (handle_register env {| uc_email := e; uc_password := p |} db).1
      = (handle_register env {| uc_email := e; uc_password := p' |} db).1) ∧
  (∀ now (e p : string) db tok db',
      handle_login now e p db = (inr tok, db') →
      ∃ u, u ∈ db ∧ email u = e ∧
        access_token tok
        = issue now {["sub" := PStr e]}
            (Some (timedelta_minutes (ACCESS_TOKEN_EXPIRE_MINUTES settings))) ∧
        token_type tok = "bearer" ∧
        user tok = Some (from_orm u)) ∧
  (∀ (u : User) (h : string),
      from_orm {| id := id u; email := email u; hashed_password := h;
                  is_guest := is_guest u; is_active := is_active u;
                  created_at := created_at u; updated_at := updated_at u |}
      = from_orm u).
Proof.
  split; [|split; [|split]].
  - intros env user db resp db' H.
    unfold register, bind, raise in H.
    destruct (get_user_by_email (uc_email user) db) as [[ex|[u|]] db1] eqn:Hget;
      [by simplify_eq/=..|].
    assert (db1 = db) as ->.
    { unfold get_user_by_email, bind, select_where_email in Hget.
      destruct (filter _ db) as [|? [|? ?]];
        unfold scalar_one_or_none, ret, raise in Hget; by simplify_eq/=. }
    unfold create_user, bind, lift, add_commit_refresh, ret in H.
    destruct (get_password_hash pwd_context (gensalt env) (uc_password user))
      as [|hashed]; [by simplify_eq/=|].
    cbn [id] in H.
    destruct (decide (uuid4 env ∈ id <$> db)) as [|Hfresh]; simplify_eq/=.
    repeat split; try done. by eexists.
  - intros env e p p' db h h' Hp Hp'. unfold register, bind. cbn [uc_email].
    destruct (get_user_by_email e db) as [[ex|[u|]] db1]; [done..|].
    unfold create_user, bind, lift, add_commit_refresh.
    cbn [uc_password]. rewrite Hp, Hp'. cbn [id].
    by destruct (decide (uuid4 env ∈ id <$> db1)).
  - intros now e p db tok db' H.
    unfold login, authenticate_user, bind, select_where_email, lift in H.
    destruct (filter (λ u, PStr (email u) = PStr e) db) as [|u [|? ?]] eqn:Hf;
      [done| |done].
    cbn [scalar_one_or_none ret] in H.
    assert (Hu : u ∈ filter (λ u, PStr (email u) = PStr e) db)
      by (rewrite Hf; left).
    apply list_elem_of_filter in Hu as [[= He] Hu].
    destruct (verify_password pwd_context p (hashed_password u)) as [|[|]];
      unfold ret, raise in H; simplify_eq/=.
    by exists u.
  - by intros [].
Qed.

End Claims.

(** ** The concrete run *)

Example alice_registers :
  register Ref.pwd_context true Scenario.env1 Scenario.alice []
  = (inr (from_orm Scenario.alice_row), Scenario.db_alice).
Proof. reflexivity. Qed.

Example alice_row_hash :
  hashed_password Scenario.alice_row
  = "$2b$12$+100.secret123N9qo8uLOickgx2ZMRZoMye".
Proof. reflexivity. Qed.

(** Issued at second 5 with a zero duration, the token carries second 1805
    as its expiry, and one second after issue it authenticates alice. *)
Example zero_delta_token_expiry :
  jwt_decode Ref.jwt 6000000 Scenario.zero_delta_token
             (SECRET_KEY default_settings) [ALGORITHM default_settings]
  = inr (sub_exp_claims "alice@example.com" (PInt 1805)).
Proof. reflexivity. Qed.

(** The token [login] hands out resolves to the user who logged in. *)
Example login_token_authenticates :
  ∃ tok,
    login Ref.pwd_context Ref.jwt default_settings 6000000
          "alice@example.com" "secret123" Scenario.db_alice
    = (inr tok, Scenario.db_alice) ∧
    get_current_user Ref.jwt default_settings 7000000 (access_token tok)
                     Scenario.db_alice
    = (inr Scenario.alice_row, Scenario.db_alice).
Proof. eexists. split; reflexivity. Qed.

Example zero_delta_token_authenticates :
  get_current_user Ref.jwt default_settings 6000000
                   Scenario.zero_delta_token Scenario.db_alice
  = (inr Scenario.alice_row, Scenario.db_alice).
Proof. reflexivity. Qed.

(** The four causes the specification lists all produce the one response. *)
Example four_causes_one_response :
  let response :=
    (inl (HTTPException 401 "Could not validate credentials"
                        (Some [("WWW-Authenticate", "Bearer")])),
     Scenario.db_alice) in
  let issue sub key exp :=
    Ref.encode (sub_exp_claims sub (PInt exp)) key "HS256" in
  let key := SECRET_KEY default_settings in
  let guard := get_current_user Ref.jwt default_settings in
  (* malformed *)
  guard 6000000 "garbage" Scenario.db_alice = response ∧
  (* signed with another key *)
  guard 6000000 (issue "alice@example.com" "another-key" 1805)
        Scenario.db_alice = response ∧
  (* expired *)
  guard 6000000 (issue "alice@example.com" key 5) Scenario.db_alice
    = response ∧
  (* valid, but no such user *)
  guard 6000000 (issue "bob@example.com" key 1805) Scenario.db_alice
    = response.
Proof. repeat split. Qed.

(** ** The theorems at the concrete run *)


Lemma duplicate_email_rejected_witness :
  register Ref.pwd_context true Scenario.env1 Scenario.alice Scenario.db_alice
  = (inl (HTTPException 400 "Email already registered" None),
     Scenario.db_alice).
Proof.
  apply (duplicate_email_rejected Ref.pwd_context true Scenario.env1
           Scenario.alice Scenario.db_alice).
  - apply NoDup_singleton.
  - apply list_elem_of_here.
Defined.

Lemma login_failures_indistinguishable_witness :
  login Ref.pwd_context Ref.jwt default_settings 6000000
        (email Scenario.alice_row) "wrong" Scenario.db_alice
  = (inl (HTTPException 401 "Incorrect email or password"
                        (Some [("WWW-Authenticate", "Bearer")])),
     Scenario.db_alice) ∧
  login Ref.pwd_context Ref.jwt default_settings 6000000
        "bob@example.com" "secret123" Scenario.db_alice
  = login Ref.pwd_context Ref.jwt default_settings 6000000
          (email Scenario.alice_row) "wrong" Scenario.db_alice.
Proof.
  apply (login_failures_indistinguishable Ref.pwd_context Ref.jwt
           default_settings 6000000 Scenario.db_alice Scenario.alice_row
           "wrong" "bob@example.com" "secret123").
  - apply NoDup_singleton.
  - apply list_elem_of_here.
  - reflexivity.
  - intros H. apply list_elem_of_singleton in H. discriminate H.
Defined.

Lemma invalid_token_gets_generic_401_witness :
  get_current_user Ref.jwt default_settings 6000000 "garbage" Scenario.db_alice
  = (inl (HTTPException 401 "Could not validate credentials"
                        (Some [("WWW-Authenticate", "Bearer")])),
     Scenario.db_alice).
Proof.
  apply (invalid_token_gets_generic_401 Ref.jwt default_settings 6000000
           "garbage" Scenario.db_alice).
  left. exists Malformed. reflexivity.
Defined.

Lemma missing_subject_rejected_witness :
  get_current_user Ref.jwt default_settings 6000000
                   Scenario.token_without_sub Scenario.db_alice
  = (inl (HTTPException 401 "Could not validate credentials"
                        (Some [("WWW-Authenticate", "Bearer")])),
     Scenario.db_alice).
Proof.
  apply (missing_subject_rejected Ref.jwt default_settings 6000000
           Scenario.token_without_sub Scenario.db_alice {["exp" := PInt 10]}).
  - reflexivity.
  - left. reflexivity.
Defined.

Lemma reachable_emails_unique_witness :
  NoDup (email <$> Scenario.db_alice) ∧
  ∀ env (user : UserCreate),
    uc_email user ∈ email <$> Scenario.db_alice →
    register Ref.pwd_context true env user Scenario.db_alice
    = (inl (HTTPException 400 "Email already registered" None),
       Scenario.db_alice).
Proof.
  apply (reachable_emails_unique Ref.pwd_context true Scenario.db_alice).
  exact (reachable_register Ref.pwd_context true Scenario.env1 Scenario.alice
           [] (reachable_empty Ref.pwd_context true)).
Defined.

Lemma responses_are_public_views_witness :
  let resp := from_orm Scenario.alice_row in
  fst <$> UserResponse_fields resp
  = ["email"; "id"; "is_guest"; "is_active"; "created_at"; "updated_at"] ∧
  ur_id resp = uuid4 Scenario.env1 ∧ (ur_id resp ∉ id <$> []) ∧
  ur_is_guest resp = false ∧ ur_email resp = uc_email Scenario.alice ∧
  ∃ row, Scenario.db_alice = [] ++ [row] ∧ resp = from_orm row.
Proof.
  apply (proj1 (responses_are_public_views Ref.pwd_context Ref.jwt
                  default_settings true)
           Scenario.env1 Scenario.alice [] (from_orm Scenario.alice_row)
           Scenario.db_alice).
  reflexivity.
Defined.

(** ** Where [verify_password] raises *)


(** ** Where registering and then logging in fails *)


(** ** Where the two login failures differ *)

(** A wrong password with a NUL character: for alice's stored email the
    password check raises, for an email nobody has the answer is the 401. *)
Lemma login_failures_differ :
  CryptContextSpec Ref.pwd_context ∧
  NoDup (email <$> Scenario.db_alice) ∧
  login Ref.pwd_context Ref.jwt default_settings 6000000
        "alice@example.com" Edge.nul_password Scenario.db_alice
  = (inl PasswordValueError, Scenario.db_alice) ∧
  login Ref.pwd_context Ref.jwt default_settings 6000000
        "bob@example.com" Edge.nul_password Scenario.db_alice
  = (inl (HTTPException 401 "Incorrect email or password"
                        (Some [("WWW-Authenticate", "Bearer")])),
     Scenario.db_alice) ∧
  login Ref.pwd_context Ref.jwt default_settings 6000000
        "alice@example.com" Edge.nul_password Scenario.db_alice
  ≠ login Ref.pwd_context Ref.jwt default_settings 6000000
          "bob@example.com" Edge.nul_password Scenario.db_alice.
Proof.
  split; [exact ref_crypt_spec|]. split; [apply NoDup_singleton|].
  split; [reflexivity|]. split; [reflexivity|]. discriminate.
Qed.

(** * Further properties of the handlers *)

Section Handlers.

Context (pwd_context : CryptContext) (jwt : Jose) (settings : Settings).
Context (is_active_default : bool).
Implicit Types (db : DB) (env : Env) (now : datetime) (u : User).

Local Abbreviation run_register :=
  (register pwd_context is_active_default).
Local Abbreviation run_login := (login pwd_context jwt settings).
Local Abbreviation run_guard := (get_current_user jwt settings).
Local Abbreviation run_create := (create_user pwd_context is_active_default).
Local Abbreviation by_email e := (λ u : User, PStr (email u) = PStr e).
Local Abbreviation expiry_of now :=
  (now + timedelta_minutes (ACCESS_TOKEN_EXPIRE_MINUTES settings)).
Local Abbreviation row_as_created :=
  (registered_row pwd_context is_active_default).
Local Abbreviation unauthorized :=
  (HTTPException 401 "Incorrect email or password"
                 (Some [("WWW-Authenticate", "Bearer")])).

(** Unfold a handler down to the lookup and split on what it finds. *)
Local Ltac run_handler :=
  unfold login, register, authenticate_user, get_current_user,
    get_user_by_email, create_user, add_commit_refresh, bind,
    select_where_email, lift, scalar_one_or_none, ret, raise in *.

(** ** What the handlers do to the store *)

(** X1. Nothing but [register] writes: the email lookup, the password
    check, [login] and the bearer guard return the store they were given,
    whether they succeed or raise. *)
Theorem lookups_leave_store_unchanged db :
  (∀ e, (get_user_by_email e db).2 = db) ∧
  (∀ e p, (authenticate_user pwd_context e p db).2 = db) ∧
  (∀ now e p, (run_login now e p db).2 = db) ∧
  (∀ now token, (run_guard now token db).2 = db).
Proof.
  repeat split.
  - intros e. run_handler. by destruct (filter _ db) as [|? [|? ?]].
  - intros e p. run_handler. destruct (filter _ db) as [|u [|? ?]]; try done.
    by destruct (verify_password _ _ _) as [|[|]].
  - intros now e p. run_handler.
    destruct (filter _ db) as [|u [|? ?]]; try done.
    by destruct (verify_password _ _ _) as [|[|]].
  - intros now token. run_handler.
    destruct (jwt_decode _ _ _ _ _) as [|payload]; [done|].
    destruct (payload !! "sub") as [[]|]; try done;
      by destruct (filter _ db) as [|? [|? ?]].
Qed.

(** One [register] request, by its outcome. *)
Lemma register_step env (user : UserCreate) db :
  match run_register env user db with
  | (inl _, db') => db' = db
  | (inr resp, db') =>
      ∃ row, db' = db ++ [row] ∧ resp = from_orm row ∧
             email row = uc_email user ∧ id row = uuid4 env
  end.
Proof.
  run_handler. destruct (filter _ db) as [|? [|? ?]]; try done.
  destruct (get_password_hash _ _ _) as [|hashed]; [done|].
  cbn [id]. destruct (decide (uuid4 env ∈ id <$> db)); [done|].
  by eexists.
Qed.

(** X2. [register] is all or nothing: when it raises, whatever the
    exception, the store is the one it was given; when it returns, the
    store has grown by exactly one row at the end, the earlier rows are
    untouched, and the response is the public view of the new row. *)
Theorem register_all_or_nothing env (user : UserCreate) db :
  match run_register env user db with
  | (inl _, db') => db' = db
  | (inr resp, db') =>
      ∃ row, db' = db ++ [row] ∧ resp = from_orm row ∧
             email row = uc_email user ∧ id row = uuid4 env
  end.
Proof. apply register_step. Qed.

(** An account the lookup finds is still the one it finds after any later
    registration request. *)
Lemma register_keeps_selection env (user : UserCreate) db e u :
  filter (by_email e) db = [u] →
  filter (by_email e) (run_register env user db).2 = [u].
Proof.
  intros Hsel.
  pose proof (register_step env user db) as Hstep.
  destruct (run_register env user db) as [[ex|resp] db'] eqn:Hreg; cbn [snd].
  { by rewrite Hstep. }
  destruct Hstep as (row & -> & _ & Hrow & _).
  rewrite filter_app, Hsel.
  destruct (decide (uc_email user = e)) as [<-|Hne].
  - exfalso. revert Hreg. run_handler. by rewrite Hsel.
  - rewrite filter_cons_False, filter_nil by congruence. done.
Qed.

(** X3. Later registrations do not disturb an account: if a login
    succeeds, the same login succeeds with the same response after any
    further [register] request, and the lookup by email keeps returning the
    same row. *)
Theorem register_preserves_accounts env (user : UserCreate) db :
  (∀ e u, get_user_by_email e db = (inr (Some u), db) →
          get_user_by_email e (run_register env user db).2
          = (inr (Some u), (run_register env user db).2)) ∧
  (∀ now e p tok, run_login now e p db = (inr tok, db) →
          run_login now e p (run_register env user db).2
          = (inr tok, (run_register env user db).2)).
Proof.
  split.
  - intros e u Hget.
    assert (Hsel : filter (by_email e) db = [u]).
    { revert Hget. run_handler.
      destruct (filter _ db) as [|? [|? ?]]; by intros [= ->]. }
    pose proof (register_keeps_selection env user db e u Hsel) as Hkeep.
    unfold get_user_by_email, bind, select_where_email. by rewrite Hkeep.
  - intros now e p tok Hlogin.
    assert (∃ u, filter (by_email e) db = [u]) as [u Hsel].
    { revert Hlogin. run_handler.
      destruct (filter _ db) as [|u [|? ?]]; try done. by exists u. }
    pose proof (register_keeps_selection env user db e u Hsel) as Hkeep.
    revert Hlogin.
    unfold login, authenticate_user, bind, select_where_email, lift.
    rewrite Hsel, Hkeep. cbn [scalar_one_or_none ret].
    destruct (verify_password _ _ _) as [|[|]]; unfold ret, raise;
      by intros [= <-].
Qed.

(** ** Error behaviour *)

(** X4. Once two or more rows carry an email, every handler that looks the
    email up raises [MultipleResultsFound] and leaves the store alone:
    [register] no longer answers 400, [login] no longer answers 401 or a
    token, and a valid token for that subject no longer resolves. *)
Theorem duplicate_rows_break_lookups db (e : string) :
  (1 < length (filter (by_email e) db))%nat →
  get_user_by_email e db = (inl MultipleResultsFound, db) ∧
  (∀ env p, run_register env {| uc_email := e; uc_password := p |} db
            = (inl MultipleResultsFound, db)) ∧
  (∀ now p, run_login now e p db = (inl MultipleResultsFound, db)) ∧
  (∀ now token payload,
      jwt_decode jwt now token (SECRET_KEY settings) [ALGORITHM settings]
        = inr payload →
      payload !! "sub" = Some (PStr e) →
      run_guard now token db = (inl MultipleResultsFound, db)).
Proof.
  intros Hlen.
  destruct (filter (by_email e) db) as [|u1 [|u2 rest]] eqn:Hsel;
    [cbn in Hlen; lia..|].
  repeat split.
  - run_handler. by rewrite Hsel.
  - intros env p. run_handler. cbn [uc_email]. by rewrite Hsel.
  - intros now p. run_handler. by rewrite Hsel.
  - intros now token payload Hdec Hsub. run_handler.
    by rewrite Hdec, Hsub, Hsel.
Qed.

(** X5. [login] has no handler around the password check: when the stored
    hash makes the hashing context raise, [login] raises that exception
    rather than answering 401, and issues no token. *)
Theorem login_propagates_hash_error now db u (p : string) (e : exn) :
  filter (by_email (email u)) db = [u] →
  verify_password pwd_context p (hashed_password u) = inl e →
  run_login now (email u) p db = (inl e, db).
Proof.
  intros Hsel Hver. run_handler. by rewrite Hsel, Hver.
Qed.

(** What a successful [login] tells about the store. *)
Lemma login_inversion now db (e p : string) tok db' :
  run_login now e p db = (inr tok, db') →
  ∃ u, filter (by_email e) db = [u] ∧
       verify_password pwd_context p (hashed_password u) = inr true ∧
       user tok = Some (from_orm u) ∧
       access_token tok
       = jwt_encode jwt (sub_exp_claims e (PDatetime (expiry_of now)))
                    (SECRET_KEY settings) (ALGORITHM settings).
Proof.
  intros Hlogin.
  unfold login, authenticate_user, bind, select_where_email, lift in Hlogin.
  destruct (filter (by_email e) db) as [|u [|? ?]] eqn:Hsel; try done.
  cbn [scalar_one_or_none ret] in Hlogin.
  assert (He : email u = e).
  { assert (Hin : u ∈ filter (by_email e) db) by (rewrite Hsel; left).
    by apply list_elem_of_filter in Hin as [[= ?] _]. }
  destruct (verify_password pwd_context p (hashed_password u)) as [|[|]] eqn:Hv;
    unfold ret, raise in Hlogin; try done.
  injection Hlogin as <- <-. exists u. cbn [user access_token].
  repeat split; try done.
  by rewrite He, login_token_expiry.
Qed.

(** X6. [login] returns a token only for a verified password: a successful
    login means exactly one row has the email, the hashing context returned
    [True] for the presented password against that row's hash, and the
    response carries that row's public view and a token whose subject is the
    email. *)
Theorem login_requires_verified_password now db (e p : string) tok db' :
  run_login now e p db = (inr tok, db') →
  ∃ u, filter (by_email e) db = [u] ∧
       verify_password pwd_context p (hashed_password u) = inr true ∧
       user tok = Some (from_orm u) ∧
       access_token tok
       = jwt_encode jwt (sub_exp_claims e (PDatetime (expiry_of now)))
                    (SECRET_KEY settings) (ALGORITHM settings).
Proof. apply login_inversion. Qed.

(** The token of a login, before and after its expiry. *)
Lemma login_token_window now db (e p : string) tok db' :
  JoseSpec jwt settings →
  run_login now e p db = (inr tok, db') →
  (∀ t, timegm t ≤ timegm (expiry_of now) →
        ∃ u, run_guard t (access_token tok) db = (inr u, db) ∧
             user tok = Some (from_orm u) ∧ email u = e) ∧
  (∀ t db2, timegm (expiry_of now) < timegm t →
        run_guard t (access_token tok) db2
        = (inl (HTTPException 401 "Could not validate credentials"
                              (Some [("WWW-Authenticate", "Bearer")])), db2)).
Proof.
  intros Hjose Hlogin.
  destruct (login_inversion _ _ _ _ _ _ Hlogin)
    as (u & Hsel & _ & Huser & Htok).
  assert (He : email u = e).
  { assert (Hin : u ∈ filter (by_email e) db) by (rewrite Hsel; left).
    by apply list_elem_of_filter in Hin as [[= ?] _]. }
  split.
  - intros t Ht. exists u. split; [|done].
    unfold get_current_user. rewrite Htok, (decode_encode _ _ Hjose).
    destruct (Z.ltb_spec (timegm (expiry_of now)) (timegm t)); [lia|].
    unfold sub_exp_claims. rewrite lookup_insert_ne, lookup_singleton_eq by done.
    unfold bind, select_where_email. by rewrite Hsel.
  - intros t db2 Ht.
    unfold get_current_user. rewrite Htok, (decode_encode _ _ Hjose).
    by destruct (Z.ltb_spec (timegm (expiry_of now)) (timegm t)); [|lia].
Qed.

(** X7. The token of a successful login resolves to the user who logged
    in at every time up to the second in which it expires, and is refused
    with the generic 401 at every later time, on any store. *)
Theorem login_token_lifetime now db (e p : string) tok db' :
  JoseSpec jwt settings →
  run_login now e p db = (inr tok, db') →
  (∀ t, timegm t ≤ timegm (expiry_of now) →
        ∃ u, run_guard t (access_token tok) db = (inr u, db) ∧
             user tok = Some (from_orm u) ∧ email u = e) ∧
  (∀ t db2, timegm (expiry_of now) < timegm t →
        run_guard t (access_token tok) db2
        = (inl (HTTPException 401 "Could not validate credentials"
                              (Some [("WWW-Authenticate", "Bearer")])), db2)).
Proof. apply login_token_window. Qed.

(** X8. The bearer guard returns a user only for a token that decodes
    under the server's key and algorithm to a payload whose ["sub"] is a
    string, and the user returned is the one row of the store with that
    email. *)
Theorem guard_returns_token_subject now (token : string) db u db' :
  run_guard now token db = (inr u, db') →
  ∃ payload,
    jwt_decode jwt now token (SECRET_KEY settings) [ALGORITHM settings]
      = inr payload ∧
    payload !! "sub" = Some (PStr (email u)) ∧
    filter (by_email (email u)) db = [u].
Proof.
  intros Hguard. unfold get_current_user in Hguard.
  destruct (jwt_decode _ _ _ _ _) as [|payload]; [done|].
  exists payload. split; [done|].
  destruct (payload !! "sub") as [v|]; [|done].
  assert (Hrun : match filter (λ u, PStr (email u) = v) db with
                 | [w] => (inr w, db)
                 | _ => (inl credentials_exception, db) : (exn + User) * DB
                 end = (inr u, db')).
  { revert Hguard. unfold bind, select_where_email.
    destruct v; [done|..]; by destruct (filter _ db) as [|? [|? ?]]. }
  destruct (filter (λ u, PStr (email u) = v) db) as [|w [|? ?]] eqn:Hsel;
    try done.
  injection Hrun as -> _.
  assert (Hin : u ∈ filter (λ u, PStr (email u) = v) db)
    by (rewrite Hsel; left).
  apply list_elem_of_filter in Hin as [<- _]. done.
Qed.

(** X9. [login] and the bearer guard consult nothing but the email and
    the hash: for any stored row that is the only one with its email and
    whose hash verifies against the password, whatever its [is_active] and
    [is_guest] flags, [login] returns a token and the guard resolves that
    token to the row until it expires. *)
Theorem login_ignores_flags now db u (p : string) t :
  JoseSpec jwt settings →
  filter (by_email (email u)) db = [u] →
  verify_password pwd_context p (hashed_password u) = inr true →
  timegm t ≤ timegm (expiry_of now) →
  ∃ tok,
    run_login now (email u) p db = (inr tok, db) ∧
    user tok = Some (from_orm u) ∧
    run_guard t (access_token tok) db = (inr u, db).
Proof.
  intros Hjose Hsel Hver Ht. eexists. split; [by apply login_success|].
  split; [done|]. cbn [access_token].
  unfold get_current_user.
  rewrite login_token_expiry, (decode_encode _ _ Hjose).
  destruct (Z.ltb_spec (timegm (expiry_of now)) (timegm t)); [lia|].
  unfold sub_exp_claims. rewrite lookup_insert_ne, lookup_singleton_eq by done.
  unfold bind, select_where_email. by rewrite Hsel.
Qed.

(** ** Stores built by registration *)

(** The rows of a store built by registration. *)
Lemma reachable_rows db :
  reachable pwd_context is_active_default db →
  NoDup (id <$> db) ∧ Forall row_as_created db.
Proof.
  induction 1 as [|env user db _ [IHid IHrows]]; [by split; constructor|].
  pose proof (register_step env user db) as Hstep.
  destruct (run_register env user db) as [[ex|resp] db'] eqn:Hreg; cbn [snd].
  { by rewrite Hstep. }
  destruct Hstep as (row & -> & _ & _ & Hid).
  revert Hreg. run_handler.
  destruct (filter _ db) as [|? [|? ?]]; try done.
  destruct (get_password_hash _ _ _) as [|hashed] eqn:Hhash; [done|].
  cbn [id].
  destruct (decide (uuid4 env ∈ id <$> db)) as [|Hfresh]; [done|].
  intros [= _ Hrow%(inj (app db))]. injection Hrow as <-.
  split.
  - rewrite fmap_app. apply NoDup_app. split; [done|].
    split; [|apply NoDup_singleton].
    by intros i Hi ->%list_elem_of_singleton.
  - apply Forall_app. split; [done|]. apply Forall_singleton.
    repeat split; eauto.
Qed.

(** X10. In every store reached from the empty one by [register] requests,
    identifiers are pairwise distinct and every row is as [create_user]
    made it: not a guest, with the default activity flag, and with a hash
    produced by [get_password_hash]. *)
Theorem reachable_rows_well_formed db :
  reachable pwd_context is_active_default db →
  NoDup (id <$> db) ∧ Forall row_as_created db.
Proof. apply reachable_rows. Qed.



(** ** Token issue *)

(** X12. Whatever [data] holds, the claims [create_access_token] signs
    carry the expiry it computed under ["exp"] (an ["exp"] entry of [data]
    is replaced) and agree with [data] on every other key; the expiry is
    [now + expires_delta] for a non-zero duration and [now] plus the
    configured minutes otherwise. *)
Theorem issued_claims now (data : pydict) (expires_delta : option timedelta) :
  ∃ claims : pydict,
    create_access_token jwt settings now data expires_delta
    = jwt_encode jwt claims (SECRET_KEY settings) (ALGORITHM settings) ∧
    claims !! "exp"
    = Some (PDatetime
              match expires_delta with
              | Some d => if d =? 0 then expiry_of now else now + d
              | None => expiry_of now
              end) ∧
    (∀ k, k ≠ "exp" → claims !! k = data !! k) ∧
    (∀ v, create_access_token jwt settings now (<["exp" := v]> data)
            expires_delta
          = create_access_token jwt settings now data expires_delta).
Proof.
  eexists. split; [reflexivity|]. split; [|split].
  - rewrite lookup_insert_eq. destruct expires_delta as [d|]; [|done].
    unfold truthy. by destruct (d =? 0).
  - intros k Hk. by rewrite lookup_insert_ne.
  - intros v. unfold create_access_token. by rewrite insert_insert_eq.
Qed.

(** X13. A configured lifetime below zero does not stop [login] from
    answering with a token, but the token is expired from the start: the
    guard refuses it at the time of issue and at every later time. *)
Theorem negative_lifetime_token_never_valid now db (e p : string) tok db' t db2 :
  JoseSpec jwt settings →
  ACCESS_TOKEN_EXPIRE_MINUTES settings < 0 →
  run_login now e p db = (inr tok, db') →
  now ≤ t →
  run_guard t (access_token tok) db2 = (inl credentials_exception, db2).
Proof.
  intros Hjose Hneg Hlogin Ht.
  destruct (login_token_window now db e p tok db' Hjose Hlogin) as [_ Hlate].
  apply Hlate. unfold timegm, timedelta_minutes.
  assert (H1 : (now + ACCESS_TOKEN_EXPIRE_MINUTES settings * 60000000)
               `div` 1000000 ≤ (now + (-60) * 1000000) `div` 1000000)
    by (apply Z.div_le_mono; lia).
  rewrite Z.div_add in H1 by lia.
  assert (H2 : now `div` 1000000 ≤ t `div` 1000000)
    by (apply Z.div_le_mono; lia).
  lia.
Qed.

(** ** The user service *)

(** X14. [create_user] hashes the password before it stores anything.
    When the hashing context raises, that exception leaves [create_user]
    and nothing is stored.  Otherwise, with a used identifier the commit
    raises [IntegrityError] and nothing is stored; with an unused
    identifier and an email no row has yet, the row is stored and returned,
    its hash is the one just made and verifies against the password, and
    [get_user_by_email] then returns exactly that row. *)
Theorem create_user_then_lookup env (user_data : UserCreate) db :
  CryptContextSpec pwd_context →
  (∀ ex,
      get_password_hash pwd_context (gensalt env) (uc_password user_data)
      = inl ex →
      run_create env user_data db = (inl ex, db)) ∧
  (∀ h,
      get_password_hash pwd_context (gensalt env) (uc_password user_data)
      = inr h →
      uuid4 env ∈ id <$> db →
      run_create env user_data db = (inl IntegrityError, db)) ∧
  (∀ h,
      get_password_hash pwd_context (gensalt env) (uc_password user_data)
      = inr h →
      uuid4 env ∉ id <$> db →
      uc_email user_data ∉ email <$> db →
      ∃ row,
        run_create env user_data db = (inr row, db ++ [row]) ∧
        email row = uc_email user_data ∧
        hashed_password row = h ∧
        verify_password pwd_context (uc_password user_data)
                        (hashed_password row) = inr true ∧
        get_user_by_email (uc_email user_data) (db ++ [row])
        = (inr (Some row), db ++ [row])).
Proof.
  intros Hctx. split; [|split].
  - intros ex Hhash. run_handler. by rewrite Hhash.
  - intros h Hhash Hid. run_handler. rewrite Hhash. cbn [id].
    by rewrite decide_True.
  - intros h Hhash Hid Hemail. eexists. split; [|split; [|split; [|split]]].
    + run_handler. rewrite Hhash. cbn [id]. by rewrite decide_False.
    + done.
    + done.
    + apply (verify_hash _ Hctx _ _ _ Hhash).
    + cbn [email]. run_handler.
      rewrite filter_app, select_absent by done.
      by rewrite filter_cons_True, filter_nil.
Qed.

End Handlers.

(** * The JSON log formatter *)

Section LogFormat.

Import logging_config.

Implicit Types (d other : odict) (k : string) (v : pyval).

Lemma keys_dict_set k v d :
  (dict_set k v d).*1 = if decide (k ∈ d.*1) then d.*1 else d.*1 ++ [k].
Proof.
  induction d as [|[k' v'] d IH]; cbn [dict_set].
  { by rewrite decide_False by apply not_elem_of_nil. }
  destruct (decide (k = k')) as [->|Hne].
  - by rewrite decide_True by (cbn; left).
  - cbn [fmap list_fmap fst]. fold (fmap (M:=list) (@fst string pyval)).
    rewrite IH. destruct (decide (k ∈ d.*1)) as [Hin|Hnot].
    + by rewrite decide_True by (cbn; by right).
    + rewrite decide_False; [done|]. cbn. rewrite elem_of_cons. tauto.
Qed.

Lemma dict_get_set k v d k' :
  dict_get k' (dict_set k v d) = if decide (k' = k) then Some v else dict_get k' d.
Proof.
  induction d as [|[k0 v0] d IH]; cbn [dict_set dict_get].
  { by destruct (decide (k' = k)). }
  destruct (decide (k = k0)) as [->|Hne]; cbn [dict_get].
  - by destruct (decide (k' = k0)).
  - rewrite IH. destruct (decide (k' = k0)) as [->|]; [|done].
    by rewrite decide_False by done.
Qed.

Lemma dict_update_snoc d other kv :
  dict_update d (other ++ [kv]) = dict_set kv.1 kv.2 (dict_update d other).
Proof. unfold dict_update. by rewrite foldl_app. Qed.

Lemma dict_get_None k d : dict_get k d = None ↔ k ∉ d.*1.
Proof.
  induction d as [|[k' v'] d IH]; cbn [dict_get].
  { split; [intros _; apply not_elem_of_nil|done]. }
  cbn. rewrite not_elem_of_cons. destruct (decide (k = k')); [|tauto].
  split; [done|tauto].
Qed.

(** Assigning never removes or reorders keys. *)
Lemma keys_dict_update d other :
  d.*1 `prefix_of` (dict_update d other).*1 ∧
  (NoDup d.*1 → NoDup (dict_update d other).*1) ∧
  (∀ k, k ∈ (dict_update d other).*1 ↔ k ∈ d.*1 ∨ k ∈ other.*1).
Proof.
  induction other as [|kv other IH] using rev_ind.
  { cbn. split; [done|]. split; [done|]. intros k.
    rewrite elem_of_nil. tauto. }
  destruct IH as (Hpre & Hnd & Hin). rewrite dict_update_snoc, keys_dict_set.
  destruct (decide (kv.1 ∈ (dict_update d other).*1)) as [Hk|Hk].
  - split; [done|]. split; [done|]. intros k.
    rewrite Hin, fmap_app, elem_of_app. cbn. rewrite list_elem_of_singleton.
    split; [tauto|]. intros [?|[?| ->]]; [tauto..|]. by apply Hin.
  - split; [by apply prefix_app_r|]. split.
    + intros Hd. apply NoDup_app. split; [auto|].
      split; [|apply NoDup_singleton].
      by intros k ? ->%list_elem_of_singleton.
    + intros k. rewrite elem_of_app, Hin, fmap_app, elem_of_app. cbn.
      rewrite !list_elem_of_singleton. tauto.
Qed.

(** A key of [other] ends up with the value of its last item there. *)
Lemma dict_get_update k d other :
  dict_get k (dict_update d other)
  = match dict_get k (reverse other) with
    | Some v => Some v
    | None => dict_get k d
    end.
Proof.
  induction other as [|[k' v'] other IH] using rev_ind; [done|].
  rewrite dict_update_snoc, dict_get_set, reverse_snoc. cbn.
  by destruct (decide (k = k')).
Qed.

Context {ExcInfo : Type} (formatException : ExcInfo → string).
Context (isoformat : datetime → string).

Local Abbreviation built := (log_obj formatException isoformat).

(** The dictionary before the optional assignments. *)
Local Abbreviation own_fields now record :=
  ([ ("timestamp", PStr (isoformat now));
     ("level", PStr (levelname record));
     ("logger", PStr (name record));
     ("message", PStr (getMessage record));
     ("module", PStr (module record));
     ("function", PStr (funcName record));
     ("line", PInt (lineno record)) ]).

(** X15. The object [format] serialises always starts with the seven
    standard keys in their fixed order, whatever the record's extra fields
    are; no key occurs twice; and the keys after the standard ones are
    exactly the new keys of [record.extra] and, when the record carries
    exception information, ["exception"]. *)
Theorem log_obj_keys now (record : LogRecord ExcInfo) :
  base_keys `prefix_of` (built now record).*1 ∧
  NoDup (built now record).*1 ∧
  ∀ k, k ∈ (built now record).*1 ↔
       k ∈ base_keys ∨
       (∃ fields, extra record = Some fields ∧ k ∈ fields.*1) ∨
       (k = "exception" ∧ is_Some (exc_info record)).
Proof.
  assert (Hbase : NoDup base_keys) by compute_done.
  unfold log_obj.
  set (base := own_fields now record).
  assert (Hkeys : base.*1 = base_keys) by done.
  set (mid := match extra record with
              | Some fields => dict_update base fields
              | None => base
              end).
  assert (Hmid : base_keys `prefix_of` mid.*1 ∧ NoDup mid.*1 ∧
                 ∀ k, k ∈ mid.*1 ↔
                      k ∈ base_keys ∨
                      ∃ fields, extra record = Some fields ∧ k ∈ fields.*1).
  { subst mid. destruct (extra record) as [fields|].
    - destruct (keys_dict_update base fields) as (Hpre & Hnd & Hin).
      rewrite Hkeys in *. split; [done|]. split; [auto|]. intros k.
      rewrite Hin. split; [intros [?|?]; eauto|].
      intros [?|(? & [= <-] & ?)]; tauto.
    - rewrite Hkeys. split; [done|]. split; [done|]. intros k.
      split; [tauto|]. by intros [?|(? & ? & ?)]. }
  destruct Hmid as (Hpre & Hnd & Hin).
  destruct (exc_info record) as [info|].
  - rewrite keys_dict_set.
    destruct (decide ("exception" ∈ mid.*1)) as [Hex|Hex].
    + split; [done|]. split; [done|]. intros k. rewrite Hin.
      split; [tauto|]. intros [?|[?|[-> _]]]; [tauto..|]. by apply Hin.
    + split; [by apply prefix_app_r|]. split.
      * apply NoDup_app. split; [done|]. split; [|apply NoDup_singleton].
        by intros k ? ->%list_elem_of_singleton.
      * intros k. rewrite elem_of_app, Hin, list_elem_of_singleton.
        split; [intros [[?|?]| ->]; eauto|].
        intros [?|[?|[-> _]]]; tauto.
  - split; [done|]. split; [done|]. intros k. rewrite Hin.
    split; [tauto|]. intros [?|[?|[_ [? [=]]]]]; tauto.
Qed.

(** The value under a key, read off the three assignments. *)
Lemma log_obj_get now (record : LogRecord ExcInfo) k :
  dict_get k (built now record)
  = let from_record :=
      match extra record with
      | Some fields =>
          match dict_get k (reverse fields) with
          | Some v => Some v
          | None => dict_get k (own_fields now record)
          end
      | None => dict_get k (own_fields now record)
      end in
    match exc_info record with
    | Some info =>
        if decide (k = "exception")
        then Some (PStr (formatException info)) else from_record
    | None => from_record
    end.
Proof.
  unfold log_obj. cbv zeta.
  destruct (exc_info record) as [info|].
  - rewrite dict_get_set. destruct (decide (k = "exception")); [done|].
    destruct (extra record); [apply dict_get_update|done].
  - destruct (extra record); [apply dict_get_update|done].
Qed.

(** X16. What [format] writes under a key.  With exception information on
    the record, ["exception"] is the formatted exception, whatever
    [record.extra] says.  Any other key of [record.extra] carries the value
    given there (the last one, if given twice), also when it is one of the
    formatter's own keys such as ["message"] or ["level"].  A key that
    [record.extra] does not have carries the formatter's own value. *)
Theorem log_obj_values now (record : LogRecord ExcInfo) :
  (∀ info, exc_info record = Some info →
      dict_get "exception" (built now record)
      = Some (PStr (formatException info))) ∧
  (∀ fields k v,
      extra record = Some fields →
      dict_get k (reverse fields) = Some v →
      k ≠ "exception" ∨ exc_info record = None →
      dict_get k (built now record) = Some v) ∧
  (∀ k,
      (∀ fields, extra record = Some fields → k ∉ fields.*1) →
      k ≠ "exception" ∨ exc_info record = None →
      dict_get k (built now record) = dict_get k (own_fields now record)).
Proof.
  repeat split.
  - intros info Hinfo. by rewrite log_obj_get, Hinfo.
  - intros fields k v Hextra Hget Hk. rewrite log_obj_get, Hextra. cbv zeta.
    rewrite Hget. destruct (exc_info record); [|done].
    destruct Hk as [Hk|[=]]. by rewrite decide_False.
  - intros k Hout Hk. rewrite log_obj_get. cbv zeta.
    assert (Hrec : match extra record with
                   | Some fields =>
                       match dict_get k (reverse fields) with
                       | Some v => Some v
                       | None => dict_get k (own_fields now record)
                       end
                   | None => dict_get k (own_fields now record)
                   end = dict_get k (own_fields now record)).
    { destruct (extra record) as [fields|]; [|done].
      assert (Hnone : dict_get k (reverse fields) = None).
      { apply dict_get_None. rewrite fmap_reverse, elem_of_reverse. eauto. }
      by rewrite Hnone. }
    rewrite Hrec. destruct (exc_info record); [|done].
    destruct Hk as [Hk|[=]]. by rewrite decide_False.
Qed.

End LogFormat.

(** * Logging set-up *)

Section LogSetup.

Import logging_config.

(** Detaching the handlers one by one, along a copy of the list, detaches
    them all, repeated entries included. *)
Lemma remove_along_copy (copy : list Handler) (lg : Logger) :
  handlers lg ⊆+ copy →
  handlers (foldl (λ lg h, removeHandler h lg) lg copy) = [] ∧
  logger_level (foldl (λ lg h, removeHandler h lg) lg copy) = logger_level lg ∧
  propagate (foldl (λ lg h, removeHandler h lg) lg copy) = propagate lg.
Proof.
  revert lg. induction copy as [|h copy IH]; intros lg Hsub.
  { by apply submseteq_nil_r in Hsub. }
  cbn [foldl].
  assert (Hstep : handlers (removeHandler h lg) ⊆+ copy ∧
                  logger_level (removeHandler h lg) = logger_level lg ∧
                  propagate (removeHandler h lg) = propagate lg).
  { unfold removeHandler. destruct (decide (h ∈ handlers lg)) as [Hin|Hnot].
    - cbn. split; [|done].
      assert (Hperm : handlers lg ≡ₚ h :: list_remove_first h (handlers lg)).
      { clear Hsub. induction (handlers lg) as [|h' hs IHhs];
          [by apply elem_of_nil in Hin|].
        cbn. destruct (decide (h = h')) as [->|Hne]; [done|].
        apply elem_of_cons in Hin as [?|Hin]; [done|].
        rewrite (IHhs Hin) at 1. apply Permutation_swap. }
      rewrite Hperm in Hsub.
      by apply (submseteq_app_inv_l _ _ [h]) in Hsub.
    - split; [|done].
      apply submseteq_cons_r in Hsub as [?|(k & Hperm & _)]; [done|].
      exfalso. apply Hnot. rewrite Hperm. left. }
  destruct Hstep as (Hsub' & Hlevel & Hprop).
  destruct (IH _ Hsub') as (? & ? & ?). split; [done|]. split; congruence.
Qed.

Context (upper lower : string → string) (logging_attr : string → option Z).
Context (LOG_LEVEL LOG_FORMAT : string).

Local Abbreviation setup :=
  (setup_logging upper lower logging_attr LOG_LEVEL LOG_FORMAT).
Local Abbreviation console :=
  (console_handler upper lower logging_attr LOG_LEVEL LOG_FORMAT).
Local Abbreviation level := (log_level upper logging_attr LOG_LEVEL).

(** The loggers [setup_logging] leaves behind. *)
Lemma setup_logging_result (st : Logging) :
  let configured :=
    {| logger_level := level; handlers := [console]; propagate := false |} in
  setup st
  = {| root := {| logger_level := level; handlers := [console];
                  propagate := propagate (root st) |};
       loggerDict :=
         <["uvicorn.access" := configured]>
           (<["uvicorn.error" := configured]>
              (<["uvicorn" := configured]> (loggerDict st))) |}.
Proof.
  unfold setup_logging.
  destruct (remove_along_copy (handlers (setLevel level (root st)))
              (setLevel level (root st))) as (Hh & Hl & Hp); [done|].
  set (cleared := foldl _ (setLevel level (root st)) _) in *.
  assert (Hroot : addHandler console cleared
                  = {| logger_level := level; handlers := [console];
                       propagate := propagate (root st) |}).
  { unfold addHandler. rewrite Hh.
    rewrite decide_False by apply not_elem_of_nil.
    by rewrite Hl, Hp. }
  rewrite Hroot. cbn [foldl uvicorn_loggers].
  unfold configure_uvicorn, addHandler, setLevel. cbn.
  by rewrite !decide_False by apply not_elem_of_nil.
Qed.

(** X17. Whatever handlers were attached before, after [setup_logging] the
    root logger and the three uvicorn loggers each have exactly one handler,
    the same console handler, at the configured level; the uvicorn loggers
    do not propagate to the root, so a record is written once; every other
    logger is left as it was. *)
Theorem setup_logging_single_handler (st : Logging) :
  root (setup st)
  = {| logger_level := level; handlers := [console];
       propagate := propagate (root st) |} ∧
  (∀ n, n ∈ uvicorn_loggers →
        loggerDict (setup st) !! n
        = Some {| logger_level := level; handlers := [console];
                  propagate := false |}) ∧
  (∀ n, n ∉ uvicorn_loggers →
        loggerDict (setup st) !! n = loggerDict st !! n).
Proof.
  rewrite setup_logging_result. cbn [root loggerDict].
  split; [done|]. split.
  - intros n Hn. unfold uvicorn_loggers in Hn.
    repeat (apply elem_of_cons in Hn as [->|Hn]);
      [..|by apply elem_of_nil in Hn];
      repeat first [rewrite lookup_insert_eq|rewrite lookup_insert_ne by done];
      done.
  - intros n Hn. unfold uvicorn_loggers in Hn.
    rewrite !not_elem_of_cons in Hn. destruct Hn as (? & ? & ? & _).
    by rewrite !lookup_insert_ne.
Qed.

(** X18. Running [setup_logging] again changes nothing: handlers do not
    pile up, on the root logger or on the uvicorn loggers. *)
Theorem setup_logging_idempotent (st : Logging) :
  setup (setup st) = setup st.
Proof.
  rewrite (setup_logging_result (setup st)), (setup_logging_result st).
  cbn [root loggerDict propagate]. f_equal.
  apply map_eq. intros n. rewrite !lookup_insert.
  by repeat case_decide.
Qed.

End LogSetup.

(** * The further properties at concrete requests *)

Example bob_registers_after_alice :
  register Ref.pwd_context true Edge.env2 Edge.bob Scenario.db_alice
  = (inr {| ur_email := "bob@example.com";
            ur_id := "c4d5e6f7-1a2b-4c3d-8e9f-0a1b2c3d4e5f";
            ur_is_guest := false; ur_is_active := true;
            ur_created_at := 8000000; ur_updated_at := 8000000 |},
     Scenario.db_alice
     ++ [{| id := "c4d5e6f7-1a2b-4c3d-8e9f-0a1b2c3d4e5f";
            email := "bob@example.com";
            hashed_password := Ref.render "Q7xVn2LkR9sTfG4hJm1ZaB" "hunter2";
            is_guest := false; is_active := true;
            created_at := 8000000; updated_at := 8000000 |}]).
Proof. reflexivity. Qed.

(** The keys keep their places; the extra ["message"] replaces the
    formatter's, the extra ["exception"] gives way to the formatted one. *)
Example noisy_record_object :
  logging_config.log_obj (λ info : string, info)
    (λ _, "1970-01-01T00:00:05") 5000000 Edge.noisy_record
  = [ ("timestamp", PStr "1970-01-01T00:00:05");
      ("level", PStr "INFO");
      ("logger", PStr "main");
      ("message", PStr "replaced");
      ("module", PStr "main");
      ("function", PStr "log_requests");
      ("line", PInt 59);
      ("request_id", PStr "r-1");
      ("exception", PStr "Traceback (most recent call last)") ].
Proof. reflexivity. Qed.

Example stale_handlers_replaced :
  logging_config.handlers
    (logging_config.root
       (logging_config.setup_logging (λ s, s) (λ s, s)
          (λ n, if decide (n = "INFO") then Some 20 else None)
          "INFO" "json" Edge.stale_logging))
  = [{| logging_config.handler_level := 20;
        logging_config.handler_formatter :=
          Some logging_config.JSONFormatter |}].
Proof. reflexivity. Qed.

Lemma register_preserves_accounts_witness :
  ∃ tok,
    login Ref.pwd_context Ref.jwt default_settings 6000000
          "alice@example.com" "secret123" Scenario.db_alice
    = (inr tok, Scenario.db_alice) ∧
    login Ref.pwd_context Ref.jwt default_settings 6000000
          "alice@example.com" "secret123"
          (register Ref.pwd_context true Edge.env2 Edge.bob
                    Scenario.db_alice).2
    = (inr tok,
       (register Ref.pwd_context true Edge.env2 Edge.bob Scenario.db_alice).2).
Proof.
  eexists. split; [reflexivity|].
  apply (proj2 (register_preserves_accounts Ref.pwd_context Ref.jwt
                  default_settings true Edge.env2 Edge.bob Scenario.db_alice)).
  reflexivity.
Defined.

Lemma duplicate_rows_break_lookups_witness :
  get_user_by_email "alice@example.com" Edge.db_twice
  = (inl MultipleResultsFound, Edge.db_twice) ∧
  (∀ env p,
      register Ref.pwd_context true env
        {| uc_email := "alice@example.com"; uc_password := p |} Edge.db_twice
      = (inl MultipleResultsFound, Edge.db_twice)) ∧
  (∀ now p,
      login Ref.pwd_context Ref.jwt default_settings now
            "alice@example.com" p Edge.db_twice
      = (inl MultipleResultsFound, Edge.db_twice)) ∧
  (∀ now token payload,
      jwt_decode Ref.jwt now token (SECRET_KEY default_settings)
                 [ALGORITHM default_settings] = inr payload →
      payload !! "sub" = Some (PStr "alice@example.com") →
      get_current_user Ref.jwt default_settings now token Edge.db_twice
      = (inl MultipleResultsFound, Edge.db_twice)).
Proof.
  apply (duplicate_rows_break_lookups Ref.pwd_context Ref.jwt default_settings
           true Edge.db_twice "alice@example.com").
  vm_compute. lia.
Defined.

Lemma login_propagates_hash_error_witness :
  login Ref.pwd_context Ref.jwt default_settings 6000000
        (email Edge.test_row) "testpassword" Edge.db_test
  = (inl UnknownHashError, Edge.db_test).
Proof.
  apply (login_propagates_hash_error Ref.pwd_context Ref.jwt default_settings
           6000000 Edge.db_test Edge.test_row "testpassword" UnknownHashError).
  - reflexivity.
  - reflexivity.
Defined.

Lemma login_requires_verified_password_witness :
  ∃ tok u,
    login Ref.pwd_context Ref.jwt default_settings 6000000
          "alice@example.com" "secret123" Scenario.db_alice
    = (inr tok, Scenario.db_alice) ∧
    filter (λ u : User, PStr (email u) = PStr "alice@example.com")
           Scenario.db_alice = [u] ∧
    verify_password Ref.pwd_context "secret123" (hashed_password u)
    = inr true ∧
    user tok = Some (from_orm u).
Proof.
  assert (Hlogin :
    login Ref.pwd_context Ref.jwt default_settings 6000000
          "alice@example.com" "secret123" Scenario.db_alice
    = (inr {| access_token :=
                create_access_token Ref.jwt default_settings 6000000
                  {["sub" := PStr "alice@example.com"]}
                  (Some (timedelta_minutes 30));
              token_type := "bearer";
              user := Some (from_orm Scenario.alice_row) |},
       Scenario.db_alice)) by reflexivity.
  destruct (login_requires_verified_password Ref.pwd_context Ref.jwt
              default_settings 6000000 Scenario.db_alice "alice@example.com"
              "secret123" _ _ Hlogin) as (u & Hsel & Hver & Huser & _).
  eexists _, u. split; [exact Hlogin|]. split; [exact Hsel|].
  split; [exact Hver|exact Huser].
Defined.

Lemma login_token_lifetime_witness :
  let tok :=
    {| access_token :=
         create_access_token Ref.jwt default_settings 6000000
           {["sub" := PStr "alice@example.com"]}
           (Some (timedelta_minutes 30));
       token_type := "bearer";
       user := Some (from_orm Scenario.alice_row) |} in
  (∀ t, timegm t ≤ timegm (6000000 + timedelta_minutes 30) →
        ∃ u, get_current_user Ref.jwt default_settings t (access_token tok)
               Scenario.db_alice = (inr u, Scenario.db_alice) ∧
             user tok = Some (from_orm u) ∧ email u = "alice@example.com") ∧
  (∀ t db2, timegm (6000000 + timedelta_minutes 30) < timegm t →
        get_current_user Ref.jwt default_settings t (access_token tok) db2
        = (inl (HTTPException 401 "Could not validate credentials"
                              (Some [("WWW-Authenticate", "Bearer")])), db2)).
Proof.
  apply (login_token_lifetime Ref.pwd_context Ref.jwt default_settings
           6000000 Scenario.db_alice "alice@example.com" "secret123" _
           Scenario.db_alice (ref_jose_spec default_settings)).
  reflexivity.
Defined.

Lemma guard_returns_token_subject_witness :
  ∃ payload,
    jwt_decode Ref.jwt 6000000 Scenario.zero_delta_token
               (SECRET_KEY default_settings) [ALGORITHM default_settings]
      = inr payload ∧
    payload !! "sub" = Some (PStr (email Scenario.alice_row)) ∧
    filter (λ u : User, PStr (email u) = PStr (email Scenario.alice_row))
           Scenario.db_alice = [Scenario.alice_row].
Proof.
  apply (guard_returns_token_subject Ref.jwt default_settings 6000000
           Scenario.zero_delta_token Scenario.db_alice Scenario.alice_row
           Scenario.db_alice).
  reflexivity.
Defined.

Lemma reachable_rows_well_formed_witness :
  NoDup (id <$> Scenario.db_alice) ∧
  Forall (registered_row Ref.pwd_context true) Scenario.db_alice.
Proof.
  apply (reachable_rows_well_formed Ref.pwd_context true Scenario.db_alice).
  exact (reachable_register Ref.pwd_context true Scenario.env1 Scenario.alice
           [] (reachable_empty Ref.pwd_context true)).
Defined.


Lemma negative_lifetime_token_never_valid_witness :
  get_current_user Ref.jwt Edge.negative_lifetime 6000000
    (create_access_token Ref.jwt Edge.negative_lifetime 6000000
       {["sub" := PStr "alice@example.com"]} (Some (timedelta_minutes (-1))))
    Scenario.db_alice
  = (inl credentials_exception, Scenario.db_alice).
Proof.
  apply (negative_lifetime_token_never_valid Ref.pwd_context Ref.jwt
           Edge.negative_lifetime 6000000 Scenario.db_alice
           "alice@example.com" "secret123"
           {| access_token :=
                create_access_token Ref.jwt Edge.negative_lifetime 6000000
                  {["sub" := PStr "alice@example.com"]}
                  (Some (timedelta_minutes (-1)));
              token_type := "bearer";
              user := Some (from_orm Scenario.alice_row) |}
           Scenario.db_alice 6000000 Scenario.db_alice
           (ref_jose_spec Edge.negative_lifetime)).
  - reflexivity.
  - reflexivity.
  - reflexivity.
Defined.

Lemma create_user_then_lookup_witness :
  ∃ row,
    create_user Ref.pwd_context true Scenario.env1 Scenario.alice []
    = (inr row, [] ++ [row]) ∧
    email row = uc_email Scenario.alice ∧
    hashed_password row = Ref.render "N9qo8uLOickgx2ZMRZoMye" "secret123" ∧
    verify_password Ref.pwd_context (uc_password Scenario.alice)
                    (hashed_password row) = inr true ∧
    get_user_by_email (uc_email Scenario.alice) ([] ++ [row])
    = (inr (Some row), [] ++ [row]).
Proof.
  apply (proj2 (proj2 (create_user_then_lookup Ref.pwd_context true
                         Scenario.env1 Scenario.alice [] ref_crypt_spec))).
  - reflexivity.
  - apply not_elem_of_nil.
  - apply not_elem_of_nil.
Defined.

Lemma login_ignores_flags_witness :
  is_active Edge.inactive_row = false ∧
  ∃ tok,
    login Ref.pwd_context Ref.jwt default_settings 6000000
          (email Edge.inactive_row) "secret123" [Edge.inactive_row]
    = (inr tok, [Edge.inactive_row]) ∧
    user tok = Some (from_orm Edge.inactive_row) ∧
    get_current_user Ref.jwt default_settings 7000000 (access_token tok)
                     [Edge.inactive_row]
    = (inr Edge.inactive_row, [Edge.inactive_row]).
Proof.
  split; [reflexivity|].
  apply (login_ignores_flags Ref.pwd_context Ref.jwt default_settings 6000000
           [Edge.inactive_row] Edge.inactive_row "secret123" 7000000
           (ref_jose_spec default_settings)).
  - reflexivity.
  - reflexivity.
  - vm_compute. discriminate.
Defined.


